(** * visualScienceTest: the adaptive Bezier flattener and the ideal
      transformer model

    Two pieces of the repository are embedded here:

    - the curve module that follows the slider component in
      [src/components/Slider.tsx]: [getDistanceToLine], [myVertex],
      [_recursiveQuadraticVertex], [myQuadraticVertex] and the module-level
      [lastX], [lastY], [flatnessTolerance], [maxRecursionDepth];
    - the transformer calculation [calculateTransformerResults].

    The TypeScript code computes on JavaScript numbers.  Each function is
    translated once, over an interface [Number] of the arithmetic it uses,
    and the interface has two instances: the primitive binary64 floats
    ([float], which is the JavaScript number type; everything runs there), and
    the real numbers ([R], exact arithmetic, for the geometric statements
    about the true curve). *)

From Stdlib Require Import Floats Reals Lra Lia List ZArith Bool Psatz Sorted.
From Stdlib Require String.
From Equations Require Import Equations.
Import ListNotations.

(** * Part I: the programs *)

(** ** The arithmetic used by the source *)

(** The operators the TypeScript code applies to values of type [number],
    and the literals it writes. *)
Class Number (T : Type) := {
  add : T -> T -> T;
  sub : T -> T -> T;
  mul : T -> T -> T;
  div : T -> T -> T;
  lt : T -> T -> bool;
  strict_eq : T -> T -> bool;
  lit0 : T;
  lit1 : T;
  lit2 : T;
  lit0_5 : T
}.

(** [a > b] is JavaScript's [b < a]. *)
Definition gt {T : Type} `{Number T} (a b : T) : bool := lt b a.

(** What arithmetic makes of a variable that was declared and never
    assigned ([let lastX: number;]): [undefined] converts to NaN. *)
Class Unassigned (T : Type) := unassigned : T.

Declare Scope num_scope.
Delimit Scope num_scope with num.
Infix "+" := add : num_scope.
Infix "-" := sub : num_scope.
Infix "*" := mul : num_scope.
Infix "/" := div : num_scope.
Infix "<?" := lt : num_scope.
Infix ">?" := gt (at level 70) : num_scope.
Infix "===" := strict_eq (at level 70) : num_scope.

(** A value with the proof that it is the value of the expression it came
    from: a branch of a test can then remember which way the test went. *)
Definition inspect {A : Type} (a : A) : {b : A | a = b} := exist _ a eq_refl.

(** ** JavaScript numbers *)

#[export] Instance float_Number : Number float := {
  add := PrimFloat.add;
  sub := PrimFloat.sub;
  mul := PrimFloat.mul;
  div := PrimFloat.div;
  lt := PrimFloat.ltb;
  strict_eq := PrimFloat.eqb;
  lit0 := 0%float;
  lit1 := 1%float;
  lit2 := 2%float;
  lit0_5 := 0.5%float
}.

#[export] Instance float_Unassigned : Unassigned float := nan.

(** [pInstance.dist] belongs to the p5 library, not to this repository; the
    flattener below takes it as a parameter.  To run the flattener on
    floats, the distance between two points is computed as the library
    documents it, the square root of the sum of the squared differences. *)
Definition float_dist (x1 y1 x2 y2 : float) : float :=
  PrimFloat.sqrt ((x2 - x1) * (x2 - x1) + (y2 - y1) * (y2 - y1))%float.

(** The real number a finite float stands for: sign, mantissa and exponent
    as [Prim2SF] gives them (0 for the zeros; the infinities and NaN stand
    for no real number and are given 0 too). *)
Definition float_value (x : float) : R :=
  match Prim2SF x with
  | S754_finite s m e =>
      ((if s then -1 else 1) * IZR (Zpos m) * powerRZ 2 e)%R
  | _ => 0%R
  end.

(** ** Exact arithmetic *)

(** The same operators on the real numbers.  The flattener divides by 2 and,
    in [getDistanceToLine], by a squared length it has just tested to be
    different from zero, so the value [Rdiv] gives to a division by zero
    plays no part.  The transformer calculation, which divides by its
    inputs, is only studied on floats. *)

Definition Rltb (a b : R) : bool := if Rlt_dec a b then true else false.

Definition Reqb (a b : R) : bool := if Req_dec_T a b then true else false.

#[export] Instance R_Number : Number R := {
  add := Rplus;
  sub := Rminus;
  mul := Rmult;
  div := Rdiv;
  lt := Rltb;
  strict_eq := Reqb;
  lit0 := 0%R;
  lit1 := 1%R;
  lit2 := 2%R;
  lit0_5 := (1 / 2)%R
}.

(** The Euclidean distance between [(x1, y1)] and [(x2, y2)]. *)
Definition euclid (x1 y1 x2 y2 : R) : R :=
  sqrt ((x2 - x1) * (x2 - x1) + (y2 - y1) * (y2 - y1))%R.

(** One coordinate of the point at parameter [t] of the quadratic Bezier
    curve with control values [p0], [p1], [p2]:
    [B(t) = (1-t)^2 p0 + 2t(1-t) p1 + t^2 p2]. *)
Definition bezier (p0 p1 p2 t : R) : R :=
  ((1 - t) * (1 - t) * p0 + 2 * t * (1 - t) * p1 + t * t * p2)%R.

(** The parameter of the orthogonal projection of [(px, py)] on the line
    through [(x1, y1)] and [(x2, y2)]: 0 at the first point, 1 at the
    second. *)
Definition projection (px py x1 y1 x2 y2 : R) : R :=
  (((px - x1) * (x2 - x1) + (py - y1) * (y2 - y1))
   / ((x2 - x1) * (x2 - x1) + (y2 - y1) * (y2 - y1)))%R.

(** The distance from [(px, py)] to the line through [(x1, y1)] and
    [(x2, y2)]: the area of the parallelogram over the length of its base. *)
Definition perpendicularDistance (px py x1 y1 x2 y2 : R) : R :=
  (Rabs ((px - x1) * (y2 - y1) - (py - y1) * (x2 - x1))
   / sqrt ((x2 - x1) * (x2 - x1) + (y2 - y1) * (y2 - y1)))%R.

(** The polar form of the same curve: [blossom p0 p1 p2 a a] is
    [bezier p0 p1 p2 a], and the part of the curve over [[a, b]] is the
    curve with control values [blossom a a], [blossom a b], [blossom b b]. *)
Definition blossom (p0 p1 p2 a b : R) : R :=
  ((1 - a) * (1 - b) * p0 + (a * (1 - b) + b * (1 - a)) * p1 + a * b * p2)%R.

(** The dyadic parameter [k / 2^8]. *)
Definition dyadic (k : nat) : R := (INR k / 256)%R.

(** ** Slider.tsx: the flattener *)

Module Flattener.

Section Source.
Context {T : Type} `{Number T}.
Local Open Scope num_scope.

Definition point : Type := (T * T)%type.

(** What the module uses of the p5 instance: [pInstance.dist], a function of
    four numbers, and [pInstance.vertex], which appends a point to the shape
    under construction, kept here as the list of its vertices in the order
    they were added. *)
Variable dist : T -> T -> T -> T -> T.

Definition vertex (shape : list point) (x y : T) : list point :=
  shape ++ [(x, y)].

Definition flatnessTolerance : T := lit0_5.

Definition maxRecursionDepth : nat := 8.

Definition getDistanceToLine (px py x1 y1 x2 y2 : T) : T :=
  let dx := x2 - x1 in
  let dy := y2 - y1 in
  let lenSq := dx * dx + dy * dy in
  if lenSq === lit0 then dist px py x1 y1
  else
    let t := ((px - x1) * dx + (py - y1) * dy) / lenSq in
    if t <? lit0 then dist px py x1 y1
    else if t >? lit1 then dist px py x2 y2
    else
      let closestX := x1 + t * dx in
      let closestY := y1 + t * dy in
      dist px py closestX closestY.

(** The test of the base case of [_recursiveQuadraticVertex]. *)
Definition flatEnough (x0 y0 x1 y1 x2 y2 : T) (depth : nat) : bool :=
  (maxRecursionDepth <=? depth)%nat
  || (getDistanceToLine x1 y1 x0 y0 x2 y2 <? flatnessTolerance).

(** [depth] only ever holds the integers 0, 1, 2, ... (it starts at 0 and
    grows by one at each call), so it is a [nat].  The function is defined
    by well-founded recursion on [maxRecursionDepth - depth]: a call that
    recurses has [depth < maxRecursionDepth] and recurses at [depth + 1]. *)
Equations? _recursiveQuadraticVertex
    (shape : list point) (x0 y0 x1 y1 x2 y2 : T) (depth : nat) : list point
    by wf (maxRecursionDepth - depth)%nat Nat.lt :=
  _recursiveQuadraticVertex shape x0 y0 x1 y1 x2 y2 depth
    with inspect (flatEnough x0 y0 x1 y1 x2 y2 depth) := {
    | exist _ true _ => vertex shape x2 y2
    | exist _ false E =>
        let midX01 := (x0 + x1) / lit2 in
        let midY01 := (y0 + y1) / lit2 in
        let midX12 := (x1 + x2) / lit2 in
        let midY12 := (y1 + y2) / lit2 in
        let midX012 := (midX01 + midX12) / lit2 in
        let midY012 := (midY01 + midY12) / lit2 in
        let shape1 :=
          _recursiveQuadraticVertex shape
            x0 y0 midX01 midY01 midX012 midY012 (depth + 1) in
        _recursiveQuadraticVertex shape1
          midX012 midY012 midX12 midY12 x2 y2 (depth + 1) }.
Proof.
  all: pose proof E as Hd; unfold flatEnough in Hd;
    apply orb_false_iff in Hd; destruct Hd as [Hd _];
    apply Nat.leb_gt in Hd; unfold Nat.lt, maxRecursionDepth in *;
    do 8 (destruct depth as [|depth]; [simpl; lia|]); lia.
Qed.

(** The module-level variables [lastX] and [lastY] ([None] until the first
    assignment), together with the shape the p5 instance is building. *)
Record state : Type := mkState {
  lastX : option T;
  lastY : option T;
  shape : list point
}.

Definition myVertex (s : state) (x y : T) : state :=
  {| lastX := Some x; lastY := Some y; shape := vertex (shape s) x y |}.

Definition read `{Unassigned T} (v : option T) : T :=
  match v with
  | Some x => x
  | None => unassigned
  end.

Definition myQuadraticVertex `{Unassigned T}
    (s : state) (cx cy x2 y2 : T) : state :=
  let x0 := read (lastX s) in
  let y0 := read (lastY s) in
  let shape' := _recursiveQuadraticVertex (shape s) x0 y0 cx cy x2 y2 0 in
  {| lastX := Some x2; lastY := Some y2; shape := shape' |}.

(** The points one call of [myQuadraticVertex] adds to the shape. *)
Definition emitted `{Unassigned T}
    (s : state) (cx cy x2 y2 : T) : list point :=
  _recursiveQuadraticVertex []
    (read (lastX s)) (read (lastY s)) cx cy x2 y2 0.

End Source.

Arguments point T : clear implicits.
Arguments state T : clear implicits.
Arguments mkState {T} lastX lastY shape.

End Flattener.

(** ** The transformer calculation *)

Module Transformer.

Import String.
Local Open Scope string_scope.

Record TransformerResults (T : Type) : Type := mkResults {
  transformerType : string;
  primaryCurrent : T;
  primaryPower : T;
  secondaryVoltage : T;
  secondaryCurrent : T;
  secondaryPower : T
}.

Arguments mkResults {T}.
Arguments transformerType {T}.
Arguments primaryCurrent {T}.
Arguments primaryPower {T}.
Arguments secondaryVoltage {T}.
Arguments secondaryCurrent {T}.
Arguments secondaryPower {T}.

Definition calculateTransformerResults {T : Type} `{Number T}
    (primaryVoltage primaryTurns secondaryTurns loadResistance : T)
    : TransformerResults T :=
  let Np := primaryTurns in
  let Ns := secondaryTurns in
  let Vp := primaryVoltage in
  let secondaryVoltage := (Vp * (Ns / Np))%num in
  let secondaryCurrent := (secondaryVoltage / loadResistance)%num in
  let secondaryPower := (secondaryVoltage * secondaryCurrent)%num in
  let primaryPower := secondaryPower in
  let primaryCurrent :=
    if (Vp >? lit0)%num then (primaryPower / Vp)%num else lit0 in
  let transformerType := "Isolation" in
  let transformerType :=
    if (Ns >? Np)%num then "Step-Up" else transformerType in
  let transformerType :=
    if (Ns <? Np)%num then "Step-Down" else transformerType in
  {| transformerType := transformerType;
     primaryCurrent := primaryCurrent;
     primaryPower := primaryPower;
     secondaryVoltage := secondaryVoltage;
     secondaryCurrent := secondaryCurrent;
     secondaryPower := secondaryPower |}.

End Transformer.

(** ** More of the arithmetic: [<=], [Math.min] and the literal 4 *)

(** What [vRect] and [insideContour] use beyond [Number]. *)
Class MathOps (T : Type) := {
  leq : T -> T -> bool;
  math_min : T -> T -> T;
  lit4 : T
}.

Infix "<=?" := leq : num_scope.

(** [Math.min] of two JavaScript numbers: NaN if either is NaN, and [-0]
    counts as smaller than [+0]. *)
Definition float_min (a b : float) : float :=
  if (is_nan a || is_nan b)%bool then nan
  else if (a <? b)%float then a
  else if (b <? a)%float then b
  else if get_sign a then a else b.

#[export] Instance float_MathOps : MathOps float := {
  leq := PrimFloat.leb;
  math_min := float_min;
  lit4 := 4%float
}.

(** ** vRect.ts and insideContour.ts: the path builders *)

Module Shapes.

Import Flattener.

(** The [direction] argument of [vRect]: ["cw"] or ["ccw"]. *)
Inductive direction : Type := cw | ccw.

Section Source.
Context {T : Type} `{Number T} `{MathOps T} `{Unassigned T}.
Variable dist : T -> T -> T -> T -> T.
Local Open Scope num_scope.

(** [corners.forEach(corner => myVertex(p, corner.x, corner.y))]. *)
Definition forEachCorner (s : state T) (corners : list (point T)) : state T :=
  fold_left (fun s corner => myVertex s (fst corner) (snd corner)) corners s.

(** [vRect], with all its arguments given (every caller in the repository
    passes the radius and the direction).  [Math.min] of three numbers is
    [Math.min] of two, twice. *)
Definition vRect (s : state T) (centerX centerY width height radius : T)
    (dir : direction) : state T :=
  let left := centerX - width / lit2 in
  let top := centerY - height / lit2 in
  let right := centerX + width / lit2 in
  let bottom := centerY + height / lit2 in
  let r := math_min (math_min radius (width / lit2)) (height / lit2) in
  if r <=? lit0 then
    let corners :=
      [(left, top); (right, top); (right, bottom); (left, bottom)] in
    let corners :=
      match dir with
      | ccw => rev corners
      | cw => corners
      end in
    forEachCorner s corners
  else
    match dir with
    | cw =>
        let s := myVertex s (left + r) top in
        let s := myVertex s (right - r) top in
        let s := myQuadraticVertex dist s right top right (top + r) in
        let s := myVertex s right (bottom - r) in
        let s := myQuadraticVertex dist s right bottom (right - r) bottom in
        let s := myVertex s (left + r) bottom in
        let s := myQuadraticVertex dist s left bottom left (bottom - r) in
        let s := myVertex s left (top + r) in
        myQuadraticVertex dist s left top (left + r) top
    | ccw =>
        let s := myVertex s (left + r) bottom in
        let s := myVertex s (right - r) bottom in
        let s := myQuadraticVertex dist s right bottom right (bottom - r) in
        let s := myVertex s right (top + r) in
        let s := myQuadraticVertex dist s right top (right - r) top in
        let s := myVertex s (left + r) top in
        let s := myQuadraticVertex dist s left top left (top + r) in
        let s := myVertex s left (bottom - r) in
        myQuadraticVertex dist s left bottom (left + r) bottom
    end.

Definition insideContour (s : state T)
    (centerX centerY width height radius thickness : T) : state T :=
  let innerTop := centerY - height / lit4 in
  let innerLeft := centerX - width / lit4 in
  let innerRight := innerLeft + width / lit2 in
  let cornerY := innerTop + height / lit2 - thickness in
  let startX := innerLeft + thickness in
  let s := myVertex s startX innerTop in
  let s := myVertex s startX (cornerY - radius) in
  let s := myQuadraticVertex dist s startX cornerY (startX + radius) cornerY in
  let s := myVertex s innerRight cornerY in
  myVertex s innerRight innerTop.

End Source.

End Shapes.

(** * Part II: the theorems *)

(** ** The flattener, for every arithmetic *)

Module FlattenerTheory.

Import Flattener.

Section Generic.
Context {T : Type} `{Number T} `{Unassigned T}.
Variable dist : T -> T -> T -> T -> T.
Local Open Scope num_scope.

Local Abbreviation rqv := (_recursiveQuadraticVertex dist).
Local Abbreviation flat := (flatEnough dist).
Local Abbreviation point := (@Flattener.point T).

(** The recursion, unfolded once. *)
Lemma rqv_unfold (sh : list point) (x0 y0 x1 y1 x2 y2 : T) (depth : nat) :
  rqv sh x0 y0 x1 y1 x2 y2 depth =
  if flat x0 y0 x1 y1 x2 y2 depth then vertex sh x2 y2
  else
    let midX01 := (x0 + x1) / lit2 in
    let midY01 := (y0 + y1) / lit2 in
    let midX12 := (x1 + x2) / lit2 in
    let midY12 := (y1 + y2) / lit2 in
    let midX012 := (midX01 + midX12) / lit2 in
    let midY012 := (midY01 + midY12) / lit2 in
    let shape1 := rqv sh x0 y0 midX01 midY01 midX012 midY012 (depth + 1) in
    rqv shape1 midX012 midY012 midX12 midY12 x2 y2 (depth + 1).
Proof.
  rewrite _recursiveQuadraticVertex_equation_1.
  unfold _recursiveQuadraticVertex_unfold_clause_1, inspect.
  destruct (flat x0 y0 x1 y1 x2 y2 depth); reflexivity.
Qed.

Lemma flatEnough_spec (x0 y0 x1 y1 x2 y2 : T) (depth : nat) :
  flat x0 y0 x1 y1 x2 y2 depth = true <->
  (maxRecursionDepth <= depth)%nat \/
  (getDistanceToLine dist x1 y1 x0 y0 x2 y2 <? flatnessTolerance) = true.
Proof.
  unfold flatEnough. rewrite orb_true_iff, Nat.leb_le. reflexivity.
Qed.

Lemma flatEnough_false_depth (x0 y0 x1 y1 x2 y2 : T) (depth : nat) :
  flat x0 y0 x1 y1 x2 y2 depth = false -> (depth < maxRecursionDepth)%nat.
Proof.
  unfold flatEnough. intros E. apply orb_false_iff in E.
  destruct E as [E _]. apply Nat.leb_gt in E. exact E.
Qed.

(** Induction along the recursion: a property of all calls follows from the
    base case and from the step that assumes it of the calls one level
    deeper. *)
Lemma rqv_depth_ind
    (P : list point -> T -> T -> T -> T -> T -> T -> nat -> Prop) :
  (forall sh x0 y0 x1 y1 x2 y2 depth,
      flat x0 y0 x1 y1 x2 y2 depth = true ->
      P sh x0 y0 x1 y1 x2 y2 depth) ->
  (forall sh x0 y0 x1 y1 x2 y2 depth,
      flat x0 y0 x1 y1 x2 y2 depth = false ->
      (forall sh' a0 b0 a1 b1 a2 b2,
          P sh' a0 b0 a1 b1 a2 b2 (depth + 1)%nat) ->
      P sh x0 y0 x1 y1 x2 y2 depth) ->
  forall sh x0 y0 x1 y1 x2 y2 depth, P sh x0 y0 x1 y1 x2 y2 depth.
Proof.
  intros Hbase Hstep.
  assert (G : forall n depth, (maxRecursionDepth - depth = n)%nat ->
              forall sh x0 y0 x1 y1 x2 y2, P sh x0 y0 x1 y1 x2 y2 depth).
  { induction n as [|n IH]; intros depth Hn sh x0 y0 x1 y1 x2 y2.
    - apply Hbase. unfold flatEnough.
      replace (maxRecursionDepth <=? depth)%nat with true; [reflexivity|].
      symmetry. apply Nat.leb_le. lia.
    - destruct (flat x0 y0 x1 y1 x2 y2 depth) eqn:E.
      + apply Hbase, E.
      + apply Hstep; [exact E|]. intros. apply IH.
        apply flatEnough_false_depth in E. lia. }
  intros. eapply G. reflexivity.
Qed.

(** A call only appends to the shape it is given. *)
Lemma rqv_app (sh : list point) (x0 y0 x1 y1 x2 y2 : T) (depth : nat) :
  rqv sh x0 y0 x1 y1 x2 y2 depth = sh ++ rqv [] x0 y0 x1 y1 x2 y2 depth.
Proof.
  revert sh x0 y0 x1 y1 x2 y2 depth.
  apply (rqv_depth_ind (fun sh x0 y0 x1 y1 x2 y2 depth =>
    rqv sh x0 y0 x1 y1 x2 y2 depth = sh ++ rqv [] x0 y0 x1 y1 x2 y2 depth)).
  - intros sh x0 y0 x1 y1 x2 y2 depth E.
    rewrite (rqv_unfold sh), (rqv_unfold []), E. reflexivity.
  - intros sh x0 y0 x1 y1 x2 y2 depth E IH.
    rewrite (rqv_unfold sh), (rqv_unfold []), E. cbv zeta.
    rewrite IH. rewrite (IH (rqv [] _ _ _ _ _ _ _)).
    rewrite (IH sh). rewrite app_assoc. reflexivity.
Qed.

(** What a call adds ends with its end point. *)
Lemma rqv_ends (x0 y0 x1 y1 x2 y2 : T) (depth : nat) :
  exists pts, rqv [] x0 y0 x1 y1 x2 y2 depth = pts ++ [(x2, y2)].
Proof.
  refine (rqv_depth_ind (fun _ x0 y0 x1 y1 x2 y2 depth =>
    exists pts, rqv [] x0 y0 x1 y1 x2 y2 depth = pts ++ [(x2, y2)])
    _ _ [] x0 y0 x1 y1 x2 y2 depth); clear.
  - intros _ x0 y0 x1 y1 x2 y2 depth E.
    exists []. rewrite rqv_unfold, E. reflexivity.
  - intros _ x0 y0 x1 y1 x2 y2 depth E IH.
    rewrite rqv_unfold, E. cbv zeta. rewrite rqv_app.
    match goal with
    | |- context [rqv [] ?a ?b ?c ?d x2 y2 (depth + 1)] =>
        destruct (IH [] a b c d x2 y2) as [p2 E2]
    end.
    rewrite E2. eexists. rewrite app_assoc. reflexivity.
Qed.

(** The number of points a call adds. *)
Lemma rqv_count (x0 y0 x1 y1 x2 y2 : T) (depth : nat) :
  (1 <= length (rqv [] x0 y0 x1 y1 x2 y2 depth)
     <= 2 ^ (maxRecursionDepth - depth))%nat.
Proof.
  refine (rqv_depth_ind (fun _ x0 y0 x1 y1 x2 y2 depth =>
    (1 <= length (rqv [] x0 y0 x1 y1 x2 y2 depth)
       <= 2 ^ (maxRecursionDepth - depth))%nat)
    _ _ [] x0 y0 x1 y1 x2 y2 depth); clear.
  - intros _ x0 y0 x1 y1 x2 y2 depth E.
    rewrite rqv_unfold, E. cbn [vertex app length].
    pose proof (Nat.pow_nonzero 2 (maxRecursionDepth - depth)). lia.
  - intros _ x0 y0 x1 y1 x2 y2 depth E IH.
    rewrite rqv_unfold, E. cbv zeta.
    rewrite rqv_app, length_app.
    apply flatEnough_false_depth in E.
    replace (maxRecursionDepth - depth)%nat
      with (S (maxRecursionDepth - (depth + 1)))%nat by lia.
    rewrite Nat.pow_succ_r'.
    match goal with
    | |- context [(length (rqv [] ?a ?b ?c ?d ?e ?f _)
                   + length (rqv [] ?a' ?b' ?c' ?d' ?e' ?f' _))%nat] =>
        pose proof (IH [] a b c d e f);
        pose proof (IH [] a' b' c' d' e' f')
    end.
    lia.
Qed.

Lemma myQuadraticVertex_shape (s : state T) (cx cy x2 y2 : T) :
  shape (myQuadraticVertex dist s cx cy x2 y2) =
  shape s ++ emitted dist s cx cy x2 y2.
Proof. unfold myQuadraticVertex, emitted. simpl. apply rqv_app. Qed.

(** C1.  Endpoint exactness: whatever the cursor holds (in particular when
    it was initialized), the points that [myQuadraticVertex cx cy ex ey]
    adds to the shape end with the point [(ex, ey)] itself, and afterwards
    [lastX] and [lastY] hold [ex] and [ey]. *)
Theorem curveTo_endpoint_exact (s : state T) (cx cy ex ey : T) :
  let s' := myQuadraticVertex dist s cx cy ex ey in
  shape s' = shape s ++ emitted dist s cx cy ex ey
  /\ (exists pts, emitted dist s cx cy ex ey = pts ++ [(ex, ey)])
  /\ (forall d, last (emitted dist s cx cy ex ey) d = (ex, ey))
  /\ lastX s' = Some ex /\ lastY s' = Some ey.
Proof.
  cbv zeta. split; [apply myQuadraticVertex_shape|].
  destruct (rqv_ends (read (lastX s)) (read (lastY s)) cx cy ex ey 0)
    as [pts E].
  fold (emitted dist s cx cy ex ey) in E.
  repeat split.
  - exists pts. exact E.
  - intros d. rewrite E. apply last_last.
Qed.

(** C3.  Termination and the number of points.  The recursion is total: it
    is defined by well-founded recursion on [maxRecursionDepth - depth],
    each call going one level deeper.  A call at the ceiling or beyond adds
    its end point and nothing else, a call at depth [depth] adds between 1
    and [2 ^ (maxRecursionDepth - depth)] points, and so one
    [myQuadraticVertex] adds between 1 and [2 ^ 8 = 256] points. *)
Theorem curveTo_terminates_point_count (s : state T) (cx cy ex ey : T) :
  (forall x0 y0 x1 y1 x2 y2 k,
      rqv [] x0 y0 x1 y1 x2 y2 (maxRecursionDepth + k) = [(x2, y2)])
  /\ (forall x0 y0 x1 y1 x2 y2 depth,
        (1 <= length (rqv [] x0 y0 x1 y1 x2 y2 depth)
           <= 2 ^ (maxRecursionDepth - depth))%nat)
  /\ shape (myQuadraticVertex dist s cx cy ex ey)
       = shape s ++ emitted dist s cx cy ex ey
  /\ (1 <= length (emitted dist s cx cy ex ey) <= 2 ^ maxRecursionDepth)%nat
  /\ (2 ^ maxRecursionDepth = 256)%nat.
Proof.
  split; [|split; [|split; [|split]]].
  - intros. rewrite rqv_unfold. unfold flatEnough.
    replace (maxRecursionDepth <=? maxRecursionDepth + k)%nat with true;
      [reflexivity|].
    symmetry. apply Nat.leb_le. lia.
  - intros. apply rqv_count.
  - apply myQuadraticVertex_shape.
  - unfold emitted.
    pose proof (rqv_count (read (lastX s)) (read (lastY s)) cx cy ex ey 0)
      as Hc.
    rewrite Nat.sub_0_r in Hc. exact Hc.
  - reflexivity.
Qed.

(** C4.  One step of the recursion on the sub-segment [(P0, P1, P2)] at
    depth [d].  The call stops, adding [P2] and nothing else, exactly when
    [d >= maxRecursionDepth] or the distance from [P1] to the segment
    [P0 P2] is strictly below [flatnessTolerance].  Otherwise it is the call
    on [(P0, M01, M012)] followed by the call on [(M012, M12, P2)], both at
    depth [d + 1]: what it adds is what the first call adds, which ends with
    [M012], followed by what the second call adds.  The step itself adds no
    point, so [M012] is put out once, as the last point of the first half. *)
Theorem recursion_step (sh : list point) (x0 y0 x1 y1 x2 y2 : T) (d : nat) :
  let stop :=
    (maxRecursionDepth <= d)%nat \/
    (getDistanceToLine dist x1 y1 x0 y0 x2 y2 <? flatnessTolerance) = true in
  let midX01 := (x0 + x1) / lit2 in
  let midY01 := (y0 + y1) / lit2 in
  let midX12 := (x1 + x2) / lit2 in
  let midY12 := (y1 + y2) / lit2 in
  let midX012 := (midX01 + midX12) / lit2 in
  let midY012 := (midY01 + midY12) / lit2 in
  let first := rqv [] x0 y0 midX01 midY01 midX012 midY012 (d + 1) in
  let second := rqv [] midX012 midY012 midX12 midY12 x2 y2 (d + 1) in
  (rqv sh x0 y0 x1 y1 x2 y2 d = sh ++ [(x2, y2)] <-> stop)
  /\ (~ stop ->
      rqv sh x0 y0 x1 y1 x2 y2 d =
        rqv (rqv sh x0 y0 midX01 midY01 midX012 midY012 (d + 1))
          midX012 midY012 midX12 midY12 x2 y2 (d + 1)
      /\ rqv sh x0 y0 x1 y1 x2 y2 d = sh ++ first ++ second
      /\ (exists pts, first = pts ++ [(midX012, midY012)])
      /\ (exists pts, second = pts ++ [(x2, y2)])).
Proof.
  cbv zeta.
  pose proof (flatEnough_spec x0 y0 x1 y1 x2 y2 d) as Hs.
  pose proof (rqv_unfold sh x0 y0 x1 y1 x2 y2 d) as Hu.
  cbv zeta in Hu.
  destruct (flat x0 y0 x1 y1 x2 y2 d) eqn:E.
  - split.
    + split; intros _; [apply Hs; reflexivity | exact Hu].
    + intros Hn. exfalso. apply Hn, Hs. reflexivity.
  - assert (Hn : ~ ((maxRecursionDepth <= d)%nat \/
                    (getDistanceToLine dist x1 y1 x0 y0 x2 y2
                       <? flatnessTolerance) = true)).
    { intros C. apply Hs in C. discriminate. }
    assert (Hsplit :
      rqv sh x0 y0 x1 y1 x2 y2 d =
      sh ++
      rqv [] x0 y0 ((x0 + x1) / lit2) ((y0 + y1) / lit2)
        (((x0 + x1) / lit2 + (x1 + x2) / lit2) / lit2)
        (((y0 + y1) / lit2 + (y1 + y2) / lit2) / lit2) (d + 1) ++
      rqv []
        (((x0 + x1) / lit2 + (x1 + x2) / lit2) / lit2)
        (((y0 + y1) / lit2 + (y1 + y2) / lit2) / lit2)
        ((x1 + x2) / lit2) ((y1 + y2) / lit2) x2 y2 (d + 1)).
    { rewrite Hu, rqv_app, (rqv_app sh), <- app_assoc. reflexivity. }
    split.
    + split; [|intros C; exfalso; exact (Hn C)].
      intros C. exfalso. rewrite Hsplit in C.
      apply app_inv_head in C.
      apply (f_equal (@length point)) in C.
      rewrite length_app in C. simpl in C.
      match type of C with
      | (length (rqv [] ?a ?b ?c ?e ?f ?g _)
         + length (rqv [] ?a' ?b' ?c' ?e' ?f' ?g' _))%nat = _ =>
          pose proof (rqv_count a b c e f g (d + 1));
          pose proof (rqv_count a' b' c' e' f' g' (d + 1))
      end.
      lia.
    + intros _. split; [exact Hu|]. split; [exact Hsplit|].
      split; apply rqv_ends.
Qed.

End Generic.

End FlattenerTheory.

(** ** The flattener in exact arithmetic *)

Module ExactTheory.

Import Flattener.
Local Open Scope R_scope.

Lemma Rltb_true (a b : R) : Rltb a b = true <-> a < b.
Proof. unfold Rltb. destruct (Rlt_dec a b); split; intros; easy. Qed.

Lemma Rltb_false (a b : R) : Rltb a b = false <-> b <= a.
Proof.
  unfold Rltb. destruct (Rlt_dec a b); split; intros; try easy; lra.
Qed.

Lemma Reqb_true (a b : R) : Reqb a b = true <-> a = b.
Proof. unfold Reqb. destruct (Req_dec_T a b); split; intros; easy. Qed.

Lemma Reqb_false (a b : R) : Reqb a b = false <-> a <> b.
Proof. unfold Reqb. destruct (Req_dec_T a b); split; intros; easy. Qed.

Lemma lenSq_zero (x1 y1 x2 y2 : R) :
  (x2 - x1) * (x2 - x1) + (y2 - y1) * (y2 - y1) = 0 <-> x1 = x2 /\ y1 = y2.
Proof.
  split.
  - intros E. apply (Rplus_sqr_eq_0 (x2 - x1) (y2 - y1)) in E.
    destruct E as [E1 E2]. split; lra.
  - intros [-> ->]. ring.
Qed.

Lemma lenSq_pos (x1 y1 x2 y2 : R) :
  (x2 - x1) * (x2 - x1) + (y2 - y1) * (y2 - y1) <> 0 ->
  0 < (x2 - x1) * (x2 - x1) + (y2 - y1) * (y2 - y1).
Proof.
  intros E.
  pose proof (Rle_0_sqr (x2 - x1)) as H1.
  pose proof (Rle_0_sqr (y2 - y1)) as H2.
  unfold Rsqr in H1, H2. lra.
Qed.

(** The four branches of [getDistanceToLine], in exact arithmetic. *)
Lemma gdl_degenerate (px py x1 y1 x2 y2 : R) :
  (x2 - x1) * (x2 - x1) + (y2 - y1) * (y2 - y1) = 0 ->
  getDistanceToLine euclid px py x1 y1 x2 y2 = euclid px py x1 y1.
Proof.
  intros E. unfold getDistanceToLine. cbn.
  apply Reqb_true in E. rewrite E. reflexivity.
Qed.

Lemma gdl_before (px py x1 y1 x2 y2 : R) :
  (x2 - x1) * (x2 - x1) + (y2 - y1) * (y2 - y1) <> 0 ->
  projection px py x1 y1 x2 y2 < 0 ->
  getDistanceToLine euclid px py x1 y1 x2 y2 = euclid px py x1 y1.
Proof.
  intros E Ht. unfold getDistanceToLine. cbn.
  apply Reqb_false in E. rewrite E.
  apply Rltb_true in Ht. unfold projection in Ht. rewrite Ht. reflexivity.
Qed.

Lemma gdl_after (px py x1 y1 x2 y2 : R) :
  (x2 - x1) * (x2 - x1) + (y2 - y1) * (y2 - y1) <> 0 ->
  1 < projection px py x1 y1 x2 y2 ->
  getDistanceToLine euclid px py x1 y1 x2 y2 = euclid px py x2 y2.
Proof.
  intros E Ht. unfold getDistanceToLine. cbn.
  apply Reqb_false in E. rewrite E.
  assert (Hn : Rltb (projection px py x1 y1 x2 y2) 0 = false)
    by (apply Rltb_false; lra).
  apply Rltb_true in Ht. unfold projection in Ht, Hn. unfold gt. cbn.
  rewrite Hn, Ht. reflexivity.
Qed.

Lemma gdl_inside (px py x1 y1 x2 y2 : R) :
  (x2 - x1) * (x2 - x1) + (y2 - y1) * (y2 - y1) <> 0 ->
  0 <= projection px py x1 y1 x2 y2 <= 1 ->
  getDistanceToLine euclid px py x1 y1 x2 y2 =
  euclid px py (x1 + projection px py x1 y1 x2 y2 * (x2 - x1))
               (y1 + projection px py x1 y1 x2 y2 * (y2 - y1)).
Proof.
  intros E [Ht0 Ht1]. unfold getDistanceToLine. cbn.
  apply Reqb_false in E. rewrite E.
  apply Rltb_false in Ht0, Ht1. unfold projection in *. unfold gt. cbn.
  rewrite Ht0, Ht1. reflexivity.
Qed.

Lemma projection_dot (px py x1 y1 x2 y2 : R) :
  (x2 - x1) * (x2 - x1) + (y2 - y1) * (y2 - y1) <> 0 ->
  projection px py x1 y1 x2 y2
    * ((x2 - x1) * (x2 - x1) + (y2 - y1) * (y2 - y1))
  = (px - x1) * (x2 - x1) + (py - y1) * (y2 - y1).
Proof. intros E. unfold projection. field. exact E. Qed.

Lemma euclid_nonneg (x1 y1 x2 y2 : R) : 0 <= euclid x1 y1 x2 y2.
Proof. apply sqrt_pos. Qed.

Lemma euclid_le (a1 b1 a2 b2 c1 d1 c2 d2 : R) :
  (a2 - a1) * (a2 - a1) + (b2 - b1) * (b2 - b1)
    <= (c2 - c1) * (c2 - c1) + (d2 - d1) * (d2 - d1) ->
  euclid a1 b1 a2 b2 <= euclid c1 d1 c2 d2.
Proof. intros. unfold euclid. apply sqrt_le_1_alt. assumption. Qed.

(** Scaling a difference vector scales the distance. *)
Lemma euclid_scaled (k vx vy a1 b1 a2 b2 : R) :
  a2 - a1 = k * vx -> b2 - b1 = k * vy ->
  euclid a1 b1 a2 b2 = Rabs k * sqrt (vx * vx + vy * vy).
Proof.
  intros Ea Eb. unfold euclid. rewrite Ea, Eb.
  replace (k * vx * (k * vx) + k * vy * (k * vy))
    with (Rsqr k * (vx * vx + vy * vy)) by (unfold Rsqr; ring).
  rewrite sqrt_mult_alt by apply Rle_0_sqr.
  rewrite sqrt_Rsqr_abs. reflexivity.
Qed.

(** Before the first end point, the first end point is the nearer one. *)
Lemma before_nearer (px py x1 y1 x2 y2 : R) :
  (x2 - x1) * (x2 - x1) + (y2 - y1) * (y2 - y1) <> 0 ->
  projection px py x1 y1 x2 y2 < 0 ->
  euclid px py x1 y1 <= euclid px py x2 y2.
Proof.
  intros E Ht. apply euclid_le.
  pose proof (projection_dot px py x1 y1 x2 y2 E) as Hd.
  pose proof (lenSq_pos x1 y1 x2 y2 E) as HL.
  assert ((px - x1) * (x2 - x1) + (py - y1) * (y2 - y1) < 0) by nra.
  nra.
Qed.

(** After the second end point, the second end point is the nearer one. *)
Lemma after_nearer (px py x1 y1 x2 y2 : R) :
  (x2 - x1) * (x2 - x1) + (y2 - y1) * (y2 - y1) <> 0 ->
  1 < projection px py x1 y1 x2 y2 ->
  euclid px py x2 y2 <= euclid px py x1 y1.
Proof.
  intros E Ht. apply euclid_le.
  pose proof (projection_dot px py x1 y1 x2 y2 E) as Hd.
  pose proof (lenSq_pos x1 y1 x2 y2 E) as HL.
  assert ((x2 - x1) * (x2 - x1) + (y2 - y1) * (y2 - y1)
          < (px - x1) * (x2 - x1) + (py - y1) * (y2 - y1)) by nra.
  nra.
Qed.

(** The distance to the foot of the perpendicular is the distance to the
    line. *)
Lemma foot_distance (px py x1 y1 x2 y2 : R) :
  (x2 - x1) * (x2 - x1) + (y2 - y1) * (y2 - y1) <> 0 ->
  euclid px py (x1 + projection px py x1 y1 x2 y2 * (x2 - x1))
               (y1 + projection px py x1 y1 x2 y2 * (y2 - y1))
  = perpendicularDistance px py x1 y1 x2 y2.
Proof.
  intros E. pose proof (lenSq_pos x1 y1 x2 y2 E) as HL.
  unfold euclid, perpendicularDistance.
  set (L := (x2 - x1) * (x2 - x1) + (y2 - y1) * (y2 - y1)) in *.
  set (c := (px - x1) * (y2 - y1) - (py - y1) * (x2 - x1)).
  replace ((x1 + projection px py x1 y1 x2 y2 * (x2 - x1) - px)
           * (x1 + projection px py x1 y1 x2 y2 * (x2 - x1) - px)
           + (y1 + projection px py x1 y1 x2 y2 * (y2 - y1) - py)
             * (y1 + projection px py x1 y1 x2 y2 * (y2 - y1) - py))
    with (Rsqr c / L).
  - rewrite sqrt_div_alt by exact HL. rewrite sqrt_Rsqr_abs. reflexivity.
  - unfold projection. fold L. unfold Rsqr, c, L. field. exact E.
Qed.

(** [getDistanceToLine] is the distance to some point of the segment ... *)
Lemma gdl_attained (px py x1 y1 x2 y2 : R) :
  exists s, 0 <= s <= 1 /\
    getDistanceToLine euclid px py x1 y1 x2 y2 =
    euclid px py (x1 + s * (x2 - x1)) (y1 + s * (y2 - y1)).
Proof.
  destruct (Req_dec_T ((x2 - x1) * (x2 - x1) + (y2 - y1) * (y2 - y1)) 0)
    as [E|E].
  - exists 0. split; [lra|]. rewrite (gdl_degenerate _ _ _ _ _ _ E).
    f_equal; ring.
  - destruct (Rlt_dec (projection px py x1 y1 x2 y2) 0) as [Hb|Hb].
    + exists 0. split; [lra|]. rewrite (gdl_before _ _ _ _ _ _ E Hb).
      f_equal; ring.
    + destruct (Rlt_dec 1 (projection px py x1 y1 x2 y2)) as [Ha|Ha].
      * exists 1. split; [lra|]. rewrite (gdl_after _ _ _ _ _ _ E Ha).
        f_equal; ring.
      * exists (projection px py x1 y1 x2 y2). split; [lra|].
        apply gdl_inside; [exact E | lra].
Qed.

(** ... and no point of the segment is nearer. *)
Lemma gdl_le_chord (px py x1 y1 x2 y2 s : R) :
  0 <= s <= 1 ->
  getDistanceToLine euclid px py x1 y1 x2 y2 <=
  euclid px py (x1 + s * (x2 - x1)) (y1 + s * (y2 - y1)).
Proof.
  intros Hs.
  destruct (Req_dec_T ((x2 - x1) * (x2 - x1) + (y2 - y1) * (y2 - y1)) 0)
    as [E|E].
  - rewrite (gdl_degenerate _ _ _ _ _ _ E).
    apply lenSq_zero in E. destruct E as [-> ->].
    apply euclid_le. right. ring.
  - pose proof (projection_dot px py x1 y1 x2 y2 E) as Hd.
    pose proof (lenSq_pos x1 y1 x2 y2 E) as HL.
    set (t := projection px py x1 y1 x2 y2) in *.
    set (L := (x2 - x1) * (x2 - x1) + (y2 - y1) * (y2 - y1)) in *.
    set (dot := (px - x1) * (x2 - x1) + (py - y1) * (y2 - y1)) in *.
    destruct (Rlt_dec t 0) as [Hb|Hb].
    + rewrite (gdl_before _ _ _ _ _ _ E Hb). apply euclid_le.
      replace ((x1 + s * (x2 - x1) - px) * (x1 + s * (x2 - x1) - px)
               + (y1 + s * (y2 - y1) - py) * (y1 + s * (y2 - y1) - py))
        with ((x1 - px) * (x1 - px) + (y1 - py) * (y1 - py)
              + (s * s * L - 2 * s * dot)) by (unfold L, dot; ring).
      assert (dot < 0) by nra.
      assert (0 <= s * s * L) by (apply Rmult_le_pos; nra).
      assert (0 <= s * - dot) by (apply Rmult_le_pos; lra).
      lra.
    + destruct (Rlt_dec 1 t) as [Ha|Ha].
      * rewrite (gdl_after _ _ _ _ _ _ E Ha). apply euclid_le.
        replace ((x1 + s * (x2 - x1) - px) * (x1 + s * (x2 - x1) - px)
                 + (y1 + s * (y2 - y1) - py) * (y1 + s * (y2 - y1) - py))
          with ((x2 - px) * (x2 - px) + (y2 - py) * (y2 - py)
                + ((1 - s) * (1 - s) * L + 2 * (1 - s) * (dot - L)))
          by (unfold L, dot; ring).
        assert (L < dot) by nra.
        assert (0 <= (1 - s) * (1 - s) * L) by (apply Rmult_le_pos; nra).
        assert (0 <= (1 - s) * (dot - L)) by (apply Rmult_le_pos; lra).
        lra.
      * rewrite gdl_inside by (exact E || (unfold t in *; lra)).
        apply euclid_le. fold t.
        replace ((x1 + s * (x2 - x1) - px) * (x1 + s * (x2 - x1) - px)
                 + (y1 + s * (y2 - y1) - py) * (y1 + s * (y2 - y1) - py))
          with ((x1 + t * (x2 - x1) - px) * (x1 + t * (x2 - x1) - px)
                + (y1 + t * (y2 - y1) - py) * (y1 + t * (y2 - y1) - py)
                + ((s - t) * (s - t) * L + 2 * (s - t) * (t * L - dot)))
          by (unfold L, dot; ring).
        rewrite Hd.
        assert (0 <= (s - t) * (s - t) * L)
          by (apply Rmult_le_pos; [apply Rle_0_sqr | lra]).
        lra.
Qed.

Lemma gdl_nonneg (px py x1 y1 x2 y2 : R) :
  0 <= getDistanceToLine euclid px py x1 y1 x2 y2.
Proof.
  destruct (gdl_attained px py x1 y1 x2 y2) as [s [_ ->]].
  apply euclid_nonneg.
Qed.

(** C5.  The distance helper, in exact arithmetic, with [euclid] for
    [pInstance.dist]: when [P0 = P2] it returns the distance from the query
    point to [P0]; when the projection parameter [t] of the query point on
    the line [P0 P2] is outside [[0, 1]] it returns the distance to the
    nearer end point ([P0] when [t < 0], [P2] when [t > 1]); otherwise it
    returns the perpendicular distance to the line. *)
Theorem getDistanceToLine_cases (px py x1 y1 x2 y2 : R) :
  let d := getDistanceToLine euclid px py x1 y1 x2 y2 in
  let t := projection px py x1 y1 x2 y2 in
  (x1 = x2 /\ y1 = y2 -> d = euclid px py x1 y1)
  /\ (~ (x1 = x2 /\ y1 = y2) -> t < 0 ->
      d = euclid px py x1 y1 /\
      d = Rmin (euclid px py x1 y1) (euclid px py x2 y2))
  /\ (~ (x1 = x2 /\ y1 = y2) -> 1 < t ->
      d = euclid px py x2 y2 /\
      d = Rmin (euclid px py x1 y1) (euclid px py x2 y2))
  /\ (~ (x1 = x2 /\ y1 = y2) -> 0 <= t <= 1 ->
      d = perpendicularDistance px py x1 y1 x2 y2).
Proof.
  cbv zeta. split; [|split; [|split]].
  - intros Heq. apply gdl_degenerate, lenSq_zero. exact Heq.
  - intros Hne Ht. rewrite <- lenSq_zero in Hne.
    rewrite (gdl_before _ _ _ _ _ _ Hne Ht). split; [reflexivity|].
    symmetry. apply Rmin_left, before_nearer; assumption.
  - intros Hne Ht. rewrite <- lenSq_zero in Hne.
    rewrite (gdl_after _ _ _ _ _ _ Hne Ht). split; [reflexivity|].
    symmetry. apply Rmin_right, after_nearer; assumption.
  - intros Hne Ht. rewrite <- lenSq_zero in Hne.
    rewrite (gdl_inside _ _ _ _ _ _ Hne Ht).
    apply foot_distance. exact Hne.
Qed.

Lemma getDistanceToLine_cases_witness :
  getDistanceToLine euclid 1 1 0 0 2 0 = perpendicularDistance 1 1 0 0 2 0.
Proof.
  apply (getDistanceToLine_cases 1 1 0 0 2 0).
  - intros [H _]. lra.
  - unfold projection. lra.
Defined.

(** The curve stays within half the control point's distance of the chord:
    replacing [P1] by the point [Q] of the chord nearest to it gives a curve
    inside the chord, and moves the point at parameter [t] by
    [2t(1-t) |P1 - Q|]. *)
Lemma curve_near_chord (x0 y0 x1 y1 x2 y2 t : R) :
  0 <= t <= 1 ->
  exists s, 0 <= s <= 1 /\
    euclid (bezier x0 x1 x2 t) (bezier y0 y1 y2 t)
           (x0 + s * (x2 - x0)) (y0 + s * (y2 - y0))
    <= getDistanceToLine euclid x1 y1 x0 y0 x2 y2 / 2.
Proof.
  intros Ht.
  destruct (gdl_attained x1 y1 x0 y0 x2 y2) as [s0 [Hs0 Hd]].
  exists (2 * t * (1 - t) * s0 + t * t). split.
  - assert (0 <= 2 * t * (1 - t)) by nra.
    assert (0 <= 2 * t * (1 - t) * s0) by (apply Rmult_le_pos; lra).
    assert (2 * t * (1 - t) * s0 <= 2 * t * (1 - t)) by nra.
    nra.
  - rewrite Hd.
    rewrite (euclid_scaled (2 * t * (1 - t))
               (x0 + s0 * (x2 - x0) - x1) (y0 + s0 * (y2 - y0) - y1)).
    + fold (euclid x1 y1 (x0 + s0 * (x2 - x0)) (y0 + s0 * (y2 - y0))).
      pose proof (euclid_nonneg x1 y1 (x0 + s0 * (x2 - x0))
                    (y0 + s0 * (y2 - y0))) as Hn.
      rewrite Rabs_pos_eq by nra.
      assert (2 * t * (1 - t) <= 1 / 2)
        by (pose proof (Rle_0_sqr (2 * t - 1)) as Hq; unfold Rsqr in Hq; lra).
      nra.
    + unfold bezier. ring.
    + unfold bezier. ring.
Qed.

(** C2.  Flatness bound, in exact arithmetic, with [euclid] for
    [pInstance.dist].  When the recursion stops on the sub-segment
    [(P0, P1, P2)] because the distance test passes at a depth below the
    ceiling, the call adds [P2] only, and the true curve
    [B(t) = (1-t)^2 P0 + 2t(1-t) P1 + t^2 P2] deviates from the chord
    [P0 P2] by less than [flatnessTolerance]: one bound [m] strictly below
    the tolerance holds, for every [t] in [[0, 1]], for the distance from
    [B(t)] to the chord (as [getDistanceToLine] measures it, and to an
    explicit point of the chord). *)
Theorem flat_segment_deviation
    (sh : list (point R)) (x0 y0 x1 y1 x2 y2 : R) (depth : nat) :
  (depth < maxRecursionDepth)%nat ->
  lt (getDistanceToLine euclid x1 y1 x0 y0 x2 y2) flatnessTolerance = true ->
  _recursiveQuadraticVertex euclid sh x0 y0 x1 y1 x2 y2 depth
    = sh ++ [(x2, y2)]
  /\ exists m, m < flatnessTolerance /\
       forall t, 0 <= t <= 1 ->
         getDistanceToLine euclid (bezier x0 x1 x2 t) (bezier y0 y1 y2 t)
           x0 y0 x2 y2 <= m
         /\ exists s, 0 <= s <= 1 /\
              euclid (bezier x0 x1 x2 t) (bezier y0 y1 y2 t)
                     (x0 + s * (x2 - x0)) (y0 + s * (y2 - y0)) <= m.
Proof.
  intros Hdepth Hflat. split.
  - rewrite FlattenerTheory.rqv_unfold. unfold flatEnough.
    rewrite Hflat, orb_true_r. reflexivity.
  - exists (getDistanceToLine euclid x1 y1 x0 y0 x2 y2 / 2). split.
    + change (Rltb (getDistanceToLine euclid x1 y1 x0 y0 x2 y2) (1 / 2) = true)
        in Hflat.
      change (getDistanceToLine euclid x1 y1 x0 y0 x2 y2 / 2 < 1 / 2).
      apply Rltb_true in Hflat.
      pose proof (gdl_nonneg x1 y1 x0 y0 x2 y2). lra.
    + intros t Ht.
      destruct (curve_near_chord x0 y0 x1 y1 x2 y2 t Ht) as [s [Hs Hle]].
      split.
      * eapply Rle_trans; [apply (gdl_le_chord _ _ _ _ _ _ s Hs) | exact Hle].
      * exists s. split; assumption.
Qed.

Lemma flat_segment_deviation_witness :
  _recursiveQuadraticVertex euclid [] 0 0 1 0 2 0 0 = [] ++ [(2, 0)]
  /\ exists m, m < flatnessTolerance /\
       forall t, 0 <= t <= 1 ->
         getDistanceToLine euclid (bezier 0 1 2 t) (bezier 0 0 0 t) 0 0 2 0 <= m
         /\ exists s, 0 <= s <= 1 /\
              euclid (bezier 0 1 2 t) (bezier 0 0 0 t)
                     (0 + s * (2 - 0)) (0 + s * (0 - 0)) <= m.
Proof.
  apply (flat_segment_deviation [] 0 0 1 0 2 0 0).
  - unfold maxRecursionDepth. lia.
  - change (Rltb (getDistanceToLine euclid 1 0 0 0 2 0) (1 / 2) = true).
    apply Rltb_true.
    rewrite gdl_inside; [|lra|unfold projection; lra].
    unfold euclid, projection.
    match goal with
    | |- sqrt ?a < _ => replace a with 0 by field
    end.
    rewrite sqrt_0. lra.
Defined.

(** *** The emitted points lie on the curve *)

Lemma sorted_app (l1 l2 : list nat) (m : nat) :
  StronglySorted Nat.lt l1 -> StronglySorted Nat.lt l2 ->
  Forall (fun k => (k <= m)%nat) l1 -> Forall (fun k => (m < k)%nat) l2 ->
  StronglySorted Nat.lt (l1 ++ l2).
Proof.
  intros S1 S2 F1 F2. induction S1 as [|a l S1 IH Ha]; simpl.
  - exact S2.
  - inversion F1; subst. constructor.
    + apply IH. assumption.
    + apply Forall_app. split; [exact Ha|].
      eapply Forall_impl; [|exact F2]. unfold Nat.lt. intros; simpl in *; lia.
Qed.

Lemma bezier_blossom (p0 p1 p2 t : R) :
  bezier p0 p1 p2 t = blossom p0 p1 p2 t t.
Proof. unfold bezier, blossom. ring. Qed.

Section OnCurve.
Variable dist : R -> R -> R -> R -> R.
Variables c0x c1x c2x c0y c1y c2y : R.

Local Abbreviation rqv := (_recursiveQuadraticVertex dist).
Local Abbreviation curve :=
  (fun k : nat => (bezier c0x c1x c2x (dyadic k), bezier c0y c1y c2y (dyadic k))).

(** A call at depth [depth] on the part of the curve over
    [[A/2^8, (A+w)/2^8]], [w = 2^(8 - depth)], adds points of the curve at
    increasing parameters [k/2^8] with [A < k <= A + w]. *)
Lemma rqv_on_curve (sh : list (point R)) (x0 y0 x1 y1 x2 y2 : R) (depth : nat) :
  forall A : nat,
    (depth <= maxRecursionDepth)%nat ->
    x0 = blossom c0x c1x c2x (dyadic A) (dyadic A) ->
    y0 = blossom c0y c1y c2y (dyadic A) (dyadic A) ->
    x1 = blossom c0x c1x c2x (dyadic A)
           (dyadic (A + 2 ^ (maxRecursionDepth - depth))) ->
    y1 = blossom c0y c1y c2y (dyadic A)
           (dyadic (A + 2 ^ (maxRecursionDepth - depth))) ->
    x2 = blossom c0x c1x c2x (dyadic (A + 2 ^ (maxRecursionDepth - depth)))
           (dyadic (A + 2 ^ (maxRecursionDepth - depth))) ->
    y2 = blossom c0y c1y c2y (dyadic (A + 2 ^ (maxRecursionDepth - depth)))
           (dyadic (A + 2 ^ (maxRecursionDepth - depth))) ->
    exists ks : list nat,
      rqv [] x0 y0 x1 y1 x2 y2 depth = map curve ks
      /\ StronglySorted Nat.lt ks
      /\ Forall (fun k => (A < k <= A + 2 ^ (maxRecursionDepth - depth))%nat) ks.
Proof.
  refine (FlattenerTheory.rqv_depth_ind dist
    (fun _ x0 y0 x1 y1 x2 y2 depth => forall A : nat,
      (depth <= maxRecursionDepth)%nat ->
      x0 = blossom c0x c1x c2x (dyadic A) (dyadic A) ->
      y0 = blossom c0y c1y c2y (dyadic A) (dyadic A) ->
      x1 = blossom c0x c1x c2x (dyadic A)
             (dyadic (A + 2 ^ (maxRecursionDepth - depth))) ->
      y1 = blossom c0y c1y c2y (dyadic A)
             (dyadic (A + 2 ^ (maxRecursionDepth - depth))) ->
      x2 = blossom c0x c1x c2x (dyadic (A + 2 ^ (maxRecursionDepth - depth)))
             (dyadic (A + 2 ^ (maxRecursionDepth - depth))) ->
      y2 = blossom c0y c1y c2y (dyadic (A + 2 ^ (maxRecursionDepth - depth)))
             (dyadic (A + 2 ^ (maxRecursionDepth - depth))) ->
      exists ks : list nat,
        rqv [] x0 y0 x1 y1 x2 y2 depth = map curve ks
        /\ StronglySorted Nat.lt ks
        /\ Forall (fun k =>
             (A < k <= A + 2 ^ (maxRecursionDepth - depth))%nat) ks)
    _ _ sh x0 y0 x1 y1 x2 y2 depth); clear sh x0 y0 x1 y1 x2 y2 depth.
  - intros _ x0 y0 x1 y1 x2 y2 depth E A Hd Hx0 Hy0 Hx1 Hy1 Hx2 Hy2.
    exists [(A + 2 ^ (maxRecursionDepth - depth))%nat].
    split; [|split].
    + rewrite FlattenerTheory.rqv_unfold, E. unfold vertex. cbn [map app].
      rewrite !bezier_blossom, <- Hx2, <- Hy2. reflexivity.
    + repeat constructor.
    + constructor; [|constructor].
      pose proof (Nat.pow_nonzero 2 (maxRecursionDepth - depth)). lia.
  - intros _ x0 y0 x1 y1 x2 y2 depth E IH A Hd Hx0 Hy0 Hx1 Hy1 Hx2 Hy2.
    apply FlattenerTheory.flatEnough_false_depth in E as Hlt.
    set (w := (2 ^ (maxRecursionDepth - (depth + 1)))%nat).
    assert (Hw : (2 ^ (maxRecursionDepth - depth) = w + w)%nat).
    { unfold w.
      replace (maxRecursionDepth - depth)%nat
        with (S (maxRecursionDepth - (depth + 1)))%nat by lia.
      rewrite Nat.pow_succ_r'. lia. }
    rewrite Hw in *.
    assert (Hmid : dyadic (A + w) = (dyadic A + dyadic (A + (w + w))) / 2).
    { unfold dyadic. rewrite !plus_INR. field. }
    rewrite FlattenerTheory.rqv_unfold, E. cbv zeta.
    rewrite FlattenerTheory.rqv_app. cbn [add div lit2 R_Number].
    destruct (IH [] x0 y0 ((x0 + x1) / 2) ((y0 + y1) / 2)
                ((((x0 + x1) / 2) + ((x1 + x2) / 2)) / 2)
                ((((y0 + y1) / 2) + ((y1 + y2) / 2)) / 2) A)
      as [ks1 [Ek1 [Sk1 Fk1]]]; fold w;
      try (rewrite Hmid; subst x0 y0 x1 y1 x2 y2; unfold blossom; field);
      try assumption; try lia.
    destruct (IH [] ((((x0 + x1) / 2) + ((x1 + x2) / 2)) / 2)
                ((((y0 + y1) / 2) + ((y1 + y2) / 2)) / 2)
                ((x1 + x2) / 2) ((y1 + y2) / 2) x2 y2 (A + w)%nat)
      as [ks2 [Ek2 [Sk2 Fk2]]]; fold w; rewrite <- ?Nat.add_assoc;
      try (rewrite Hmid; subst x0 y0 x1 y1 x2 y2; unfold blossom; field);
      try assumption; try lia.
    fold w in Fk1, Fk2. clearbody w.
    exists (ks1 ++ ks2). split; [|split].
    + rewrite map_app, <- Ek1, <- Ek2. reflexivity.
    + apply (sorted_app ks1 ks2 (A + w)); try assumption.
      * eapply Forall_impl; [|exact Fk1]. cbv beta. intros; lia.
      * eapply Forall_impl; [|exact Fk2]. cbv beta. intros; lia.
    + apply Forall_app. split.
      * eapply Forall_impl; [|exact Fk1]. cbv beta. intros; lia.
      * eapply Forall_impl; [|exact Fk2]. cbv beta. intros; lia.
Qed.

End OnCurve.

Lemma dyadic_increasing (j k : nat) : (j < k)%nat -> dyadic j < dyadic k.
Proof.
  intros Hjk. unfold dyadic. apply lt_INR in Hjk. lra.
Qed.

Lemma dyadic_unit (k : nat) : (0 < k <= 256)%nat -> 0 < dyadic k <= 1.
Proof.
  intros [H0 H1]. unfold dyadic.
  apply lt_INR in H0. apply le_INR in H1.
  change (INR 0) with 0 in H0.
  replace (INR 256) with 256 in H1 by (rewrite INR_IZR_INZ; reflexivity).
  lra.
Qed.

(** C9.  In exact arithmetic, whatever [pInstance.dist] computes: with the
    cursor at [(x0, y0)], every point that [myQuadraticVertex cx cy ex ey]
    adds lies on the curve
    [B(t) = (1-t)^2 (x0,y0) + 2t(1-t) (cx,cy) + t^2 (ex,ey)], at a dyadic
    parameter [t = k / 2^8] with [0 < t <= 1], and the points come in
    strictly increasing order of [t]. *)
Theorem emitted_points_on_curve
    (u : Unassigned R) (dist : R -> R -> R -> R -> R)
    (s : state R) (x0 y0 cx cy ex ey : R) :
  lastX s = Some x0 -> lastY s = Some y0 ->
  exists ks : list nat,
    emitted dist s cx cy ex ey
      = map (fun k => (bezier x0 cx ex (dyadic k), bezier y0 cy ey (dyadic k)))
          ks
    /\ StronglySorted Nat.lt ks
    /\ StronglySorted Rlt (map dyadic ks)
    /\ Forall (fun k => (0 < k <= 256)%nat) ks
    /\ Forall (fun t => 0 < t <= 1) (map dyadic ks).
Proof.
  intros Hx Hy. unfold emitted. rewrite Hx, Hy. cbn [read].
  destruct (rqv_on_curve dist x0 cx ex y0 cy ey [] x0 y0 cx cy ex ey 0 0)
    as [ks [Ek [Sk Fk]]].
  - unfold maxRecursionDepth. lia.
  - unfold blossom, dyadic. cbn. field.
  - unfold blossom, dyadic. cbn. field.
  - unfold blossom, dyadic.
    replace (INR (0 + 2 ^ (maxRecursionDepth - 0))) with 256
      by (rewrite INR_IZR_INZ; reflexivity).
    cbn. field.
  - unfold blossom, dyadic.
    replace (INR (0 + 2 ^ (maxRecursionDepth - 0))) with 256
      by (rewrite INR_IZR_INZ; reflexivity).
    cbn. field.
  - unfold blossom, dyadic.
    replace (INR (0 + 2 ^ (maxRecursionDepth - 0))) with 256
      by (rewrite INR_IZR_INZ; reflexivity).
    field.
  - unfold blossom, dyadic.
    replace (INR (0 + 2 ^ (maxRecursionDepth - 0))) with 256
      by (rewrite INR_IZR_INZ; reflexivity).
    field.
  - change (0 + 2 ^ (maxRecursionDepth - 0))%nat with 256%nat in Fk.
    exists ks. split; [exact Ek|]. split; [exact Sk|].
    split; [|split].
    + clear Ek Fk. induction Sk as [|a l Sl IH Ha]; simpl; constructor.
      * exact IH.
      * apply Forall_map. eapply Forall_impl; [|exact Ha].
        intros b Hab. apply dyadic_increasing, Hab.
    + exact Fk.
    + apply Forall_map. eapply Forall_impl; [|exact Fk].
      intros k Hk. apply dyadic_unit, Hk.
Qed.

(** The scenario of the specification: the curve from [(0, 0)] through the
    control point [(0, 10)] to [(10, 10)]. *)
Lemma emitted_points_on_curve_witness :
  exists ks : list nat,
    emitted (H0 := 0) euclid (mkState (Some 0) (Some 0) []) 0 10 10 10
      = map (fun k => (bezier 0 0 10 (dyadic k), bezier 0 10 10 (dyadic k))) ks
    /\ StronglySorted Nat.lt ks
    /\ StronglySorted Rlt (map dyadic ks)
    /\ Forall (fun k => (0 < k <= 256)%nat) ks
    /\ Forall (fun t => 0 < t <= 1) (map dyadic ks).
Proof.
  apply (emitted_points_on_curve 0 euclid
           (mkState (Some 0) (Some 0) []) 0 0 0 10 10 10); reflexivity.
Defined.

End ExactTheory.

(** ** JavaScript numbers: facts of binary64 arithmetic *)

(** The primitive floats are specified through [Prim2SF], which maps a float
    to its sign, mantissa and exponent, and the [_spec] equations of the
    operations.  The facts below are what the two programs need: how the
    comparisons relate, what [x - x], [x / x] and [x * 1] are, and what a
    division by zero gives. *)

Module FloatFacts.

Local Open Scope float_scope.

Lemma Prim2SF_zero : Prim2SF 0 = S754_zero false.
Proof. reflexivity. Qed.

Lemma Prim2SF_one : Prim2SF 1 = S754_finite false 4503599627370496 (-52).
Proof. reflexivity. Qed.

Lemma Prim2SF_infinity : Prim2SF infinity = S754_infinity false.
Proof. reflexivity. Qed.

Lemma SFcompare_refl_finite (s : bool) (m : positive) (e : Z) :
  SFcompare (S754_finite s m e) (S754_finite s m e) = Some Eq.
Proof.
  simpl. destruct s; rewrite Z.compare_refl, Pos.compare_cont_refl;
    reflexivity.
Qed.

(** Swapping the operands of a comparison reverses its result. *)
Lemma SFcompare_antisym (x y : spec_float) :
  SFcompare y x = option_map CompOpp (SFcompare x y).
Proof.
  destruct x as [s|s| |s m e], y as [s'|s'| |s' m' e']; simpl;
    try destruct s; try destruct s'; try reflexivity;
    rewrite (Z.compare_antisym e e'); destruct (e ?= e')%Z; simpl;
    try reflexivity;
    pose proof (Pos.compare_cont_antisym m m' Eq) as Ha; simpl in Ha;
    rewrite <- Ha; reflexivity.
Qed.

(** Turns a goal about [<?], [<=?] and [=?] on [a] and [b] into a case
    analysis on the one comparison of [a] with [b]. *)
Ltac by_comparison a b :=
  rewrite ?FloatAxioms.eqb_spec, ?ltb_spec, ?leb_spec;
  unfold SFltb, SFleb, SFeqb;
  rewrite (SFcompare_antisym (Prim2SF a) (Prim2SF b));
  destruct (SFcompare (Prim2SF a) (Prim2SF b)) as [[| |]|]; simpl;
  intros; repeat split; congruence.

Lemma ltb_asym (a b : float) : (a <? b) = true -> (b <? a) = false.
Proof. by_comparison a b. Qed.

Lemma eqb_not_ltb (a b : float) :
  (a =? b) = true -> (a <? b) = false /\ (b <? a) = false.
Proof. by_comparison a b. Qed.

Lemma leb_not_gt (a b : float) : (a <=? b) = true -> (b <? a) = false.
Proof. by_comparison a b. Qed.

Lemma ltb_not_eqb (a b : float) : (a <? b) = true -> (b =? a) = false.
Proof. by_comparison a b. Qed.

(** The finite numbers are the zeros and the numbers with a mantissa. *)
Lemma is_finite_SF (x : float) :
  is_finite x =
  match Prim2SF x with
  | S754_zero _ | S754_finite _ _ _ => true
  | _ => false
  end.
Proof.
  unfold is_finite, is_nan, is_infinity.
  rewrite !FloatAxioms.eqb_spec, abs_spec, Prim2SF_infinity.
  destruct (Prim2SF x) as [s|s| |s m e]; try reflexivity.
  - destruct s; reflexivity.
  - unfold SFeqb at 1. rewrite SFcompare_refl_finite. reflexivity.
Qed.

Lemma finite_cases (x : float) :
  is_finite x = true ->
  (exists s, Prim2SF x = S754_zero s) \/
  (exists s m e, Prim2SF x = S754_finite s m e).
Proof.
  rewrite is_finite_SF.
  destruct (Prim2SF x) as [s|s| |s m e]; intros Hf; try discriminate.
  - left. exists s. reflexivity.
  - right. exists s, m, e. reflexivity.
Qed.

Lemma is_zero_SF (x : float) :
  (x =? 0) = true -> exists s, Prim2SF x = S754_zero s.
Proof.
  rewrite FloatAxioms.eqb_spec, Prim2SF_zero.
  destruct (Prim2SF x) as [s|s| |s m e]; unfold SFeqb; simpl.
  - exists s. reflexivity.
  - destruct s; discriminate.
  - discriminate.
  - destruct s; discriminate.
Qed.

(** A finite number minus itself is [+0]. *)
Lemma sub_self (x : float) : is_finite x = true -> x - x = 0.
Proof.
  intros Hf. apply Prim2SF_inj. rewrite sub_spec, Prim2SF_zero.
  destruct (finite_cases x Hf) as [[s E]|[s [m [e E]]]]; rewrite E.
  - destruct s; reflexivity.
  - unfold SF64sub, SFsub. cbv zeta. rewrite Z.sub_diag. reflexivity.
Qed.

(** Two numbers that compare equal are the same number, the two zeros
    apart. *)
Lemma eqb_finite_eq (a b : float) :
  (a =? b) = true -> is_finite b = true -> (b =? 0) = false -> a = b.
Proof.
  intros Heq Hf Hz. apply Prim2SF_inj.
  rewrite FloatAxioms.eqb_spec in Heq, Hz.
  destruct (finite_cases b Hf) as [[s E]|[s [m [e E]]]]; rewrite E in *.
  - exfalso. destruct s; discriminate.
  - clear Hz. unfold SFeqb in Heq.
    destruct (Prim2SF a) as [s'|s'| |s' m' e']; simpl in Heq;
      try (destruct s; discriminate);
      try (destruct s'; discriminate); try discriminate.
    destruct s', s; try discriminate;
      destruct (e' ?= e)%Z eqn:Ee; try discriminate;
      apply Z.compare_eq in Ee; subst e';
      destruct (Pos.compare_cont Eq m' m) eqn:Em; try discriminate;
      apply Pos.compare_eq in Em; subst m'; reflexivity.
Qed.

(** Dividing by zero never gives a finite number. *)
Lemma div_zero_not_finite (x d : float) :
  (d =? 0) = true -> is_finite (x / d) = false.
Proof.
  intros Hd. destruct (is_zero_SF d Hd) as [s E].
  rewrite is_finite_SF, div_spec, E.
  destruct (Prim2SF x) as [sx|sx| |sx mx ex]; reflexivity.
Qed.

(** A numerator that is not finite never gives a finite quotient. *)
Lemma div_num_not_finite (x d : float) :
  is_finite x = false -> is_finite (x / d) = false.
Proof.
  rewrite !is_finite_SF, div_spec.
  destruct (Prim2SF x) as [sx|sx| |sx mx ex],
           (Prim2SF d) as [sd|sd| |sd md ed]; try reflexivity; discriminate.
Qed.

(** Multiplying by a number that is not finite never gives a finite one. *)
Lemma mul_not_finite (x y : float) :
  is_finite y = false -> is_finite (x * y) = false.
Proof.
  rewrite !is_finite_SF, mul_spec.
  destruct (Prim2SF x) as [sx|sx| |sx mx ex],
           (Prim2SF y) as [sy|sy| |sy my ey]; try reflexivity; discriminate.
Qed.

(** The integer division behind [x / x]: the mantissa, shifted by 53 bits,
    divided by itself. *)
Lemma div_eucl_exact (m : positive) :
  Z.div_eucl (Z.shiftl (Zpos m) 53) (Zpos m) = (9007199254740992%Z, 0%Z).
Proof.
  rewrite Z.shiftl_mul_pow2 by lia.
  change (2 ^ 53)%Z with 9007199254740992%Z.
  pose proof (Z_div_mod (Z.pos m * 9007199254740992) (Z.pos m) eq_refl) as Hs.
  destruct (Z.div_eucl (Z.pos m * 9007199254740992) (Z.pos m)) as [q r].
  destruct Hs as [Hq Hr].
  destruct (Z.div_mod_unique (Z.pos m) q 9007199254740992 r 0) as [-> ->];
    try reflexivity; try lia.
Qed.

(** A finite number other than zero, divided by itself, is exactly 1. *)
Lemma div_self (x : float) :
  is_finite x = true -> (x =? 0) = false -> x / x = 1.
Proof.
  intros Hf Hz. apply Prim2SF_inj. rewrite div_spec.
  destruct (finite_cases x Hf) as [[s E]|[s [m [e E]]]].
  - exfalso. rewrite FloatAxioms.eqb_spec, E in Hz. destruct s; discriminate.
  - rewrite E. unfold SF64div, SFdiv, SFdiv_core_binary. cbv zeta.
    rewrite !Z.sub_diag.
    change (Z.min (fexp prec emax 0) 0) with (-53)%Z.
    change (0 - -53)%Z with 53%Z. cbv iota.
    rewrite div_eucl_exact.
    unfold new_location.
    destruct (Z.even (Z.pos m)); destruct s; reflexivity.
Qed.

(** Rounding the mantissa [m * 2^52] at exponent [e - 52] gives [m] at
    exponent [e], with nothing lost, when [m] is canonical at [e]. *)
Lemma shr_fexp_shifted (m : positive) (e : Z) :
  fexp prec emax (Z.pos (digits2_pos m) + e) = e ->
  shr_fexp prec emax (Z.pos (4503599627370496 * m)) (e + -52) loc_Exact
  = ({| shr_m := Z.pos m; shr_r := false; shr_s := false |}, e).
Proof.
  intros Hc. unfold shr_fexp, Zdigits2. cbn [Pos.mul digits2_pos].
  rewrite !Pos2Z.inj_succ.
  match goal with
  | |- context [fexp prec emax ?a] =>
      replace a with (Z.pos (digits2_pos m) + e)%Z by lia
  end.
  rewrite Hc.
  replace (e - (e + -52))%Z with 52%Z by lia.
  unfold shr, shr_record_of_loc. cbv [iter_pos shr_1 orb].
  f_equal. lia.
Qed.

Lemma shr_fexp_canonical (m : positive) (e : Z) :
  fexp prec emax (Z.pos (digits2_pos m) + e) = e ->
  shr_fexp prec emax (Z.pos m) e loc_Exact
  = ({| shr_m := Z.pos m; shr_r := false; shr_s := false |}, e).
Proof.
  intros Hc. unfold shr_fexp, Zdigits2. rewrite Hc, Z.sub_diag. reflexivity.
Qed.

(** Multiplying by 1 changes nothing, whatever the number (NaN, the
    infinities and the zeros included). *)
Lemma mul_one (x : float) : x * 1 = x.
Proof.
  apply Prim2SF_inj. rewrite mul_spec, Prim2SF_one.
  pose proof (Prim2SF_valid x) as Hv.
  destruct (Prim2SF x) as [s|s| |s m e]; try (destruct s; reflexivity).
  - reflexivity.
  - unfold SF64mul, SFmul.
    simpl in Hv. unfold bounded, canonical_mantissa in Hv.
    apply andb_true_iff in Hv. destruct Hv as [Hc Hb].
    apply Z.eqb_eq in Hc.
    rewrite Pos.mul_comm.
    replace (xorb s false) with s by (destruct s; reflexivity).
    unfold binary_round_aux.
    rewrite (shr_fexp_shifted m e Hc).
    cbn [shr_m loc_of_shr_record round_nearest_even].
    rewrite (shr_fexp_canonical m e Hc). cbn [shr_m].
    rewrite Hb. reflexivity.
Qed.

End FloatFacts.

(** ** The flattener on JavaScript numbers *)

Module FlattenerFloat.

Import Flattener FloatFacts.
Local Open Scope float_scope.

(** The scenario of the specification: cursor at [(0, 0)], control point
    [(0, 10)], end point [(10, 10)]. *)
Example scenario_curve :
  emitted float_dist (mkState (Some 0) (Some 0) []) 0 10 10 10
  = [(0.625, 4.375); (2.5, 7.5); (5.625, 9.375); (10, 10)].
Proof. vm_compute. reflexivity. Qed.

(** The four branches of [getDistanceToLine], on sample points around the
    segment from [(0, 0)] to [(2, 0)], and on a segment of length zero. *)
Example distance_zero_length :
  getDistanceToLine float_dist 3 4 0 0 0 0 = 5.
Proof. vm_compute. reflexivity. Qed.

Example distance_before_segment :
  getDistanceToLine float_dist (-3) 4 0 0 2 0 = 5.
Proof. vm_compute. reflexivity. Qed.

Example distance_after_segment :
  getDistanceToLine float_dist 5 4 0 0 2 0 = 5.
Proof. vm_compute. reflexivity. Qed.

Example distance_perpendicular :
  getDistanceToLine float_dist 1 1 0 0 2 0 = 1.
Proof. vm_compute. reflexivity. Qed.

(** [myVertex] puts its point out and moves the cursor there; a curve then
    starts from it. *)
Example vertex_then_curve :
  myQuadraticVertex float_dist
    (myVertex (mkState None None []) 0 0) 0 10 10 10
  = mkState (Some 10) (Some 10)
      [(0, 0); (0.625, 4.375); (2.5, 7.5); (5.625, 9.375); (10, 10)].
Proof. vm_compute. reflexivity. Qed.

(** With the cursor never assigned, the start point is NaN, no flatness
    test passes, and the curve is cut down to the depth ceiling; it still
    ends at its end point. *)
Example curve_without_cursor :
  length (emitted float_dist (mkState None None []) 0 10 10 10) = 256%nat
  /\ last (emitted float_dist (mkState None None []) 0 10 10 10) (0, 0)
     = (10, 10).
Proof. vm_compute. split; reflexivity. Qed.

(** The first step of that scenario subdivides at [M012 = (2.5, 7.5)]. *)
Lemma recursion_step_witness :
  _recursiveQuadraticVertex float_dist [] 0 0 0 10 10 10 0
  = _recursiveQuadraticVertex float_dist
      (_recursiveQuadraticVertex float_dist [] 0 0 0 5 2.5 7.5 1)
      2.5 7.5 5 10 10 10 1
  /\ _recursiveQuadraticVertex float_dist [] 0 0 0 10 10 10 0
     = [] ++ _recursiveQuadraticVertex float_dist [] 0 0 0 5 2.5 7.5 1
          ++ _recursiveQuadraticVertex float_dist [] 2.5 7.5 5 10 10 10 1
  /\ (exists pts,
        _recursiveQuadraticVertex float_dist [] 0 0 0 5 2.5 7.5 1
        = pts ++ [(2.5, 7.5)])
  /\ (exists pts,
        _recursiveQuadraticVertex float_dist [] 2.5 7.5 5 10 10 10 1
        = pts ++ [(10, 10)]).
Proof.
  refine (proj2 (FlattenerTheory.recursion_step
                   float_dist [] 0 0 0 10 10 10 0) _).
  intros [Hd|Hf].
  - unfold maxRecursionDepth in Hd. lia.
  - vm_compute in Hf. discriminate.
Defined.

(** The documented distance from a finite point to itself is zero. *)
Lemma float_dist_self (x y : float) :
  is_finite x = true -> is_finite y = true -> float_dist x y x y = 0.
Proof.
  intros Hx Hy. unfold float_dist. rewrite (sub_self x Hx), (sub_self y Hy).
  reflexivity.
Qed.

(** C6, for finite cursor positions.  For every finite [P = (x, y)], and
    with a [pInstance.dist] that puts [P] at a distance from itself below
    the tolerance, [myQuadraticVertex] with control point and end point both
    equal to [P] does not subdivide: the squared length of the segment is
    zero, the distance check takes the zero-length fallback and returns
    [dist P P], and the call adds exactly one point, [P]. *)
Theorem degenerate_curve_one_point
    (dist : float -> float -> float -> float -> float)
    (s : state float) (x y : float) :
  lastX s = Some x -> lastY s = Some y ->
  is_finite x = true -> is_finite y = true ->
  (dist x y x y <? flatnessTolerance)%num = true ->
  (((x - x) * (x - x) + (y - y) * (y - y)) === lit0)%num = true
  /\ getDistanceToLine dist x y x y x y = dist x y x y
  /\ flatEnough dist x y x y x y 0 = true
  /\ emitted dist s x y x y = [(x, y)]
  /\ shape (myQuadraticVertex dist s x y x y) = shape s ++ [(x, y)].
Proof.
  intros Hlx Hly Hx Hy Hd.
  assert (Hlen : (((x - x) * (x - x) + (y - y) * (y - y)) === lit0)%num = true).
  { cbn [sub mul add strict_eq lit0 float_Number].
    rewrite (sub_self x Hx), (sub_self y Hy). reflexivity. }
  assert (Hg : getDistanceToLine dist x y x y x y = dist x y x y).
  { unfold getDistanceToLine. cbv zeta. rewrite Hlen. reflexivity. }
  assert (Hf : flatEnough dist x y x y x y 0 = true).
  { unfold flatEnough. rewrite Hg, Hd. apply orb_true_r. }
  assert (He : emitted dist s x y x y = [(x, y)]).
  { unfold emitted. rewrite Hlx, Hly. cbn [read].
    rewrite FlattenerTheory.rqv_unfold, Hf. reflexivity. }
  repeat split; try assumption.
  rewrite FlattenerTheory.myQuadraticVertex_shape, He. reflexivity.
Qed.

Lemma degenerate_curve_one_point_witness :
  emitted float_dist (mkState (Some 3.5) (Some (-2)) []) 3.5 (-2) 3.5 (-2)
  = [(3.5, -2)].
Proof.
  apply (degenerate_curve_one_point float_dist
           (mkState (Some 3.5) (Some (-2)) []) 3.5 (-2));
    vm_compute; reflexivity.
Defined.

(** C6 as stated fails for a cursor that is not finite: at
    [P = (Infinity, 0)] the squared length is NaN, no comparison holds, and
    the recursion runs to the depth ceiling, adding 256 points. *)
Lemma degenerate_curve_infinite_cursor :
  is_finite infinity = false
  /\ length (emitted float_dist (mkState (Some infinity) (Some 0) [])
               infinity 0 infinity 0) = 256%nat
  /\ flatEnough float_dist infinity 0 infinity 0 infinity 0 0 = false.
Proof. vm_compute. repeat split; reflexivity. Qed.

(** *** Where rounding separates the code from the geometry *)

(** The numbers [2^54], [2^54 + 4] and [2^54 + 8] are floats; between them
    the floats are 4 apart. *)
Lemma float_value_base :
  float_value 18014398509481984 = 18014398509481984%R.
Proof.
  unfold float_value.
  replace (Prim2SF 18014398509481984)
    with (S754_finite false 4503599627370496 2) by (vm_compute; reflexivity).
  simpl powerRZ. lra.
Qed.

Lemma float_value_base4 :
  float_value 18014398509481988 = (18014398509481984 + 4)%R.
Proof.
  unfold float_value.
  replace (Prim2SF 18014398509481988)
    with (S754_finite false 4503599627370497 2) by (vm_compute; reflexivity).
  simpl powerRZ. lra.
Qed.

Lemma float_value_base8 :
  float_value 18014398509481992 = (18014398509481984 + 8)%R.
Proof.
  unfold float_value.
  replace (Prim2SF 18014398509481992)
    with (S754_finite false 4503599627370498 2) by (vm_compute; reflexivity).
  simpl powerRZ. lra.
Qed.

Lemma sqrt_80_bounds : (0 < sqrt 80 < 16)%R.
Proof.
  split.
  - apply sqrt_lt_R0. lra.
  - replace 16%R with (sqrt (16 * 16)) by (apply sqrt_square; lra).
    apply sqrt_lt_1_alt. lra.
Qed.

(** Wherever it is placed, the curve from [(b, b)] through [(b+4, b+4)] to
    [(b+8, b+4)] is, at [t = 1/2], more than 1/2 away from the line through
    its end points (8 / sqrt 80, about 0.89). *)
Lemma bent_curve_deviation (b : R) :
  (1 / 2 < perpendicularDistance
             (bezier b (b + 4) (b + 8) (1 / 2))
             (bezier b (b + 4) (b + 4) (1 / 2))
             b b (b + 8) (b + 4))%R.
Proof.
  unfold perpendicularDistance, bezier.
  replace ((b + 8 - b) * (b + 8 - b) + (b + 4 - b) * (b + 4 - b))%R
    with 80%R by ring.
  match goal with
  | |- (_ < Rabs ?c / _)%R => replace c with (Ropp 8) by field
  end.
  rewrite Rabs_Ropp, Rabs_pos_eq by lra.
  pose proof sqrt_80_bounds as [Hp Hl].
  apply Rmult_lt_reg_r with (sqrt 80); [exact Hp|].
  replace (8 / sqrt 80 * sqrt 80)%R with 8%R by (field; lra). lra.
Qed.

(** The control point of that curve projects inside the segment of the end
    points, and is more than 1 away from their line (16 / sqrt 80, about
    1.79). *)
Lemma bent_curve_control_point (b : R) :
  (0 <= projection (b + 4) (b + 4) b b (b + 8) (b + 4) <= 1
   /\ 1 < perpendicularDistance (b + 4) (b + 4) b b (b + 8) (b + 4))%R.
Proof.
  unfold projection, perpendicularDistance.
  replace ((b + 8 - b) * (b + 8 - b) + (b + 4 - b) * (b + 4 - b))%R
    with 80%R by ring.
  split.
  - replace ((b + 4 - b) * (b + 8 - b) + (b + 4 - b) * (b + 4 - b))%R
      with 48%R by ring.
    lra.
  - match goal with
    | |- (_ < Rabs ?c / _)%R => replace c with (Ropp 16) by ring
    end.
    rewrite Rabs_Ropp, Rabs_pos_eq by lra.
    pose proof sqrt_80_bounds as [Hp Hl].
    apply Rmult_lt_reg_r with (sqrt 80); [exact Hp|].
    replace (16 / sqrt 80 * sqrt 80)%R with 16%R by (field; lra). lra.
Qed.

(** C2 as stated fails on JavaScript numbers.  With [P0 = (2^54, 2^54)],
    [P1 = (2^54 + 4, 2^54 + 4)], [P2 = (2^54 + 8, 2^54 + 4)], the projection
    parameter is 0.6 and the foot of the perpendicular, [2^54 + 4.8] and
    [2^54 + 2.4], rounds to [P1] itself: the distance computed is 0, the
    test passes at depth 0 and the call adds [P2] only, while the true curve
    of these three points is more than the tolerance 1/2 away from the line
    through [P0] and [P2]. *)
Lemma flat_test_passes_on_bent_curve :
  (0 < maxRecursionDepth)%nat
  /\ (getDistanceToLine float_dist
        18014398509481988 18014398509481988
        18014398509481984 18014398509481984
        18014398509481992 18014398509481988 <? flatnessTolerance)%num = true
  /\ _recursiveQuadraticVertex float_dist []
       18014398509481984 18014398509481984
       18014398509481988 18014398509481988
       18014398509481992 18014398509481988 0
     = [(18014398509481992, 18014398509481988)]
  /\ float_value flatnessTolerance = (1 / 2)%R
  /\ (1 / 2 < perpendicularDistance
                (bezier (float_value 18014398509481984)
                        (float_value 18014398509481988)
                        (float_value 18014398509481992) (1 / 2))
                (bezier (float_value 18014398509481984)
                        (float_value 18014398509481988)
                        (float_value 18014398509481988) (1 / 2))
                (float_value 18014398509481984)
                (float_value 18014398509481984)
                (float_value 18014398509481992)
                (float_value 18014398509481988))%R.
Proof.
  split; [unfold maxRecursionDepth; lia|].
  split; [vm_compute; reflexivity|].
  split; [vm_compute; reflexivity|].
  split.
  - unfold float_value.
    replace (Prim2SF flatnessTolerance)
      with (S754_finite false 4503599627370496 (-53))
      by (vm_compute; reflexivity).
    simpl powerRZ. lra.
  - rewrite float_value_base, float_value_base4, float_value_base8.
    apply bent_curve_deviation.
Qed.

(** C5 as stated fails on JavaScript numbers.  For the same three points,
    [P0] and [P2] differ and the projection parameter of [P1] is inside
    [[0, 1]], so the claim promises the perpendicular distance, which is
    more than 1; the foot of the perpendicular rounds to [P1] and the helper
    returns 0. *)
Lemma distance_lost_to_rounding :
  getDistanceToLine float_dist
    18014398509481988 18014398509481988
    18014398509481984 18014398509481984
    18014398509481992 18014398509481988 = 0
  /\ float_value 0 = 0%R
  /\ float_value 18014398509481984 <> float_value 18014398509481992
  /\ (0 <= projection
             (float_value 18014398509481988) (float_value 18014398509481988)
             (float_value 18014398509481984) (float_value 18014398509481984)
             (float_value 18014398509481992) (float_value 18014398509481988)
        <= 1)%R
  /\ (1 < perpendicularDistance
            (float_value 18014398509481988) (float_value 18014398509481988)
            (float_value 18014398509481984) (float_value 18014398509481984)
            (float_value 18014398509481992) (float_value 18014398509481988))%R.
Proof.
  split; [vm_compute; reflexivity|].
  split; [reflexivity|].
  rewrite float_value_base, float_value_base4, float_value_base8.
  split; [lra|].
  apply bent_curve_control_point.
Qed.

End FlattenerFloat.

(** ** The transformer on JavaScript numbers *)

Module TransformerTheory.

Import Transformer FloatFacts String.
Local Open Scope float_scope.

(** C7, with the isolation case for a finite, non-zero number of turns.
    [calculateTransformerResults] returns
    [Vs = Vp * (Ns / Np)], [Is = Vs / R], [Ps = Vs * Is], [Pp = Ps]; the type
    is "Step-Up" when [Ns > Np], "Step-Down" when [Ns < Np], and "Isolation"
    otherwise, in particular when [Ns = Np]; when [Ns = Np] and the common
    value is finite and not zero, [Vs = Vp]; and for [Vp = 40], [Np = 1],
    [Ns = 2], [R = 10] the result is [Vs = 80], [Is = 8], [Ps = 640],
    [Pp = 640], [Ip = 16], "Step-Up". *)
Theorem transformer_results (Vp Np Ns R : float) :
  let r := calculateTransformerResults Vp Np Ns R in
  secondaryVoltage r = Vp * (Ns / Np)
  /\ secondaryCurrent r = secondaryVoltage r / R
  /\ secondaryPower r = secondaryVoltage r * secondaryCurrent r
  /\ primaryPower r = secondaryPower r
  /\ ((Ns >? Np)%num = true -> transformerType r = "Step-Up"%string)
  /\ ((Ns <? Np) = true -> transformerType r = "Step-Down"%string)
  /\ ((Ns >? Np)%num = false -> (Ns <? Np) = false ->
      transformerType r = "Isolation"%string)
  /\ ((Ns =? Np) = true -> transformerType r = "Isolation"%string)
  /\ ((Ns =? Np) = true -> is_finite Np = true -> (Np =? 0) = false ->
      secondaryVoltage r = Vp)
  /\ calculateTransformerResults 40 1 2 10
     = {| transformerType := "Step-Up"%string;
          primaryCurrent := 16;
          primaryPower := 640;
          secondaryVoltage := 80;
          secondaryCurrent := 8;
          secondaryPower := 640 |}.
Proof.
  cbv zeta. unfold calculateTransformerResults, gt.
  cbn [transformerType primaryCurrent primaryPower secondaryVoltage
       secondaryCurrent secondaryPower add sub mul div lt strict_eq lit0
       float_Number].
  repeat match goal with |- _ /\ _ => split end; try reflexivity.
  - intros Hgt. rewrite Hgt, (ltb_asym _ _ Hgt). reflexivity.
  - intros Hlt. rewrite Hlt. reflexivity.
  - intros Hgt Hlt. rewrite Hgt, Hlt. reflexivity.
  - intros Heq. destruct (eqb_not_ltb _ _ Heq) as [H1 H2].
    rewrite H1, H2. reflexivity.
  - intros Heq Hfin Hnz.
    rewrite (eqb_finite_eq Ns Np Heq Hfin Hnz).
    rewrite (div_self Np Hfin Hnz). apply mul_one.
Qed.

Lemma transformer_results_witness :
  secondaryVoltage (calculateTransformerResults 40 3 3 10) = 40.
Proof.
  apply (transformer_results 40 3 3 10); vm_compute; reflexivity.
Defined.

(** C7 as stated fails when the common number of turns is zero: the type is
    "Isolation", and the secondary voltage is NaN, not [Vp]. *)
Lemma isolation_with_zero_turns :
  (0 =? 0) = true
  /\ transformerType (calculateTransformerResults 40 0 0 10)
     = "Isolation"%string
  /\ secondaryVoltage (calculateTransformerResults 40 0 0 10) = nan
  /\ (secondaryVoltage (calculateTransformerResults 40 0 0 10) =? 40) = false
  /\ secondaryVoltage (calculateTransformerResults 40 0 0 10) <> 40.
Proof.
  repeat split; try (vm_compute; reflexivity).
  intros E.
  apply (f_equal is_nan) in E. vm_compute in E. discriminate.
Qed.

(** With a zero primary voltage the primary current is 0. *)
Lemma primary_current_zero (Vp Np Ns R : float) :
  (Vp =? 0) = true ->
  primaryCurrent (calculateTransformerResults Vp Np Ns R) = 0.
Proof.
  intros Hz. unfold calculateTransformerResults, gt.
  cbn [primaryCurrent lt lit0 float_Number].
  destruct (eqb_not_ltb _ _ Hz) as [_ H2]. rewrite H2. reflexivity.
Qed.

(** C8.  The division by [Vp] is guarded: when [Vp > 0] the primary current
    is [Pp / Vp], and then [Vp] is not zero; when [Vp <= 0], and more
    generally whenever [Vp > 0] does not hold (NaN included), it is 0.  So
    no division by a zero [Vp] contributes to the result. *)
Theorem primary_current_guarded (Vp Np Ns R : float) :
  let r := calculateTransformerResults Vp Np Ns R in
  ((Vp >? 0)%num = true ->
     primaryCurrent r = primaryPower r / Vp /\ (Vp =? 0) = false)
  /\ ((Vp <=? 0) = true -> primaryCurrent r = 0)
  /\ ((Vp >? 0)%num = false -> primaryCurrent r = 0)
  /\ ((Vp =? 0) = true -> primaryCurrent r = 0).
Proof.
  cbv zeta. unfold calculateTransformerResults, gt.
  cbn [transformerType primaryCurrent primaryPower secondaryVoltage
       secondaryCurrent secondaryPower add sub mul div lt strict_eq lit0
       float_Number].
  repeat match goal with |- _ /\ _ => split end.
  - intros Hgt. split; [rewrite Hgt; reflexivity|].
    apply ltb_not_eqb. exact Hgt.
  - intros Hle. rewrite (leb_not_gt _ _ Hle). reflexivity.
  - intros Hgt. rewrite Hgt. reflexivity.
  - intros Hz. destruct (eqb_not_ltb _ _ Hz) as [_ H2]. rewrite H2.
    reflexivity.
Qed.

Lemma primary_current_guarded_witness :
  primaryCurrent (calculateTransformerResults 40 1 2 10)
  = primaryPower (calculateTransformerResults 40 1 2 10) / 40
  /\ (40 =? 0) = false.
Proof.
  apply (proj1 (primary_current_guarded 40 1 2 10)). vm_compute. reflexivity.
Defined.

(** C10.  The divisions by [Np] and by [R] are not guarded: the secondary
    voltage is [Vp * (Ns / Np)] and the secondary current [Vs / R] whatever
    the divisors are.  With [Np = 0] the secondary voltage is not a finite
    number (it is infinite or NaN), and with [R = 0], or [Np = 0], neither
    is the secondary current; so finite results require [Np <> 0] and
    [R <> 0].  The division by [Vp] is different: with [Vp = 0] the primary
    current is 0. *)
Theorem turns_and_load_unguarded (Vp Np Ns R : float) :
  let r := calculateTransformerResults Vp Np Ns R in
  secondaryVoltage r = Vp * (Ns / Np)
  /\ secondaryCurrent r = secondaryVoltage r / R
  /\ ((Np =? 0) = true -> is_finite (secondaryVoltage r) = false)
  /\ ((Np =? 0) = true -> is_finite (secondaryCurrent r) = false)
  /\ ((R =? 0) = true -> is_finite (secondaryCurrent r) = false)
  /\ (is_finite (secondaryVoltage r) = true -> (Np =? 0) = false)
  /\ (is_finite (secondaryCurrent r) = true ->
      (Np =? 0) = false /\ (R =? 0) = false)
  /\ ((Vp =? 0) = true -> primaryCurrent r = 0).
Proof.
  cbv zeta.
  assert (HV : (Np =? 0) = true ->
               is_finite (secondaryVoltage
                            (calculateTransformerResults Vp Np Ns R)) = false).
  { intros Hz. apply mul_not_finite, div_zero_not_finite, Hz. }
  assert (HI : (Np =? 0) = true ->
               is_finite (secondaryCurrent
                            (calculateTransformerResults Vp Np Ns R)) = false).
  { intros Hz. apply div_num_not_finite, (HV Hz). }
  assert (HR : (R =? 0) = true ->
               is_finite (secondaryCurrent
                            (calculateTransformerResults Vp Np Ns R)) = false).
  { intros Hz. apply div_zero_not_finite, Hz. }
  repeat match goal with |- _ /\ _ => split end;
    try reflexivity; try assumption.
  - intros Hf. destruct (Np =? 0) eqn:Hz; [|reflexivity].
    rewrite (HV eq_refl) in Hf. discriminate.
  - intros Hf. split.
    + destruct (Np =? 0) eqn:Hz; [|reflexivity].
      rewrite (HI eq_refl) in Hf. discriminate.
    + destruct (R =? 0) eqn:Hz; [|reflexivity].
      rewrite (HR eq_refl) in Hf. discriminate.
  - apply (primary_current_zero Vp Np Ns R).
Qed.

Lemma turns_and_load_unguarded_witness :
  (1 =? 0) = false /\ (10 =? 0) = false.
Proof.
  apply (turns_and_load_unguarded 40 1 2 10). vm_compute. reflexivity.
Defined.

End TransformerTheory.

(** ** The path builders, for every arithmetic *)

Module ShapesTheory.

Import Flattener Shapes.

Section Generic.
Context {T : Type} `{Number T} `{MathOps T} `{Unassigned T}.
Variable dist : T -> T -> T -> T -> T.
Local Open Scope num_scope.

Local Abbreviation curve := (_recursiveQuadraticVertex dist []).

(** A curve drawn from an assigned cursor. *)
Lemma myQuadraticVertex_from (s : state T) (x0 y0 cx cy ex ey : T) :
  lastX s = Some x0 -> lastY s = Some y0 ->
  myQuadraticVertex dist s cx cy ex ey
  = mkState (Some ex) (Some ey) (shape s ++ curve x0 y0 cx cy ex ey 0).
Proof.
  intros Hx Hy. unfold myQuadraticVertex. rewrite Hx, Hy. cbn [read].
  rewrite FlattenerTheory.rqv_app. reflexivity.
Qed.

Lemma curve_length (x0 y0 cx cy ex ey : T) :
  (1 <= length (curve x0 y0 cx cy ex ey 0) <= 256)%nat.
Proof.
  pose proof (FlattenerTheory.rqv_count dist x0 y0 cx cy ex ey 0) as Hc.
  rewrite Nat.sub_0_r in Hc. exact Hc.
Qed.

(** A curve is some points followed by its end point. *)
Lemma curve_split (x0 y0 cx cy ex ey : T) :
  exists pts, curve x0 y0 cx cy ex ey 0 = pts ++ [(ex, ey)]
              /\ (length pts <= 255)%nat.
Proof.
  destruct (FlattenerTheory.rqv_ends dist x0 y0 cx cy ex ey 0) as [pts E].
  exists pts. split; [exact E|].
  pose proof (curve_length x0 y0 cx cy ex ey) as Hl.
  rewrite E, length_app in Hl. cbn [length] in Hl. lia.
Qed.

(** The vertices [vRect] adds with rounded corners, clockwise ... *)
Lemma vRect_rounded_cw (s : state T) (centerX centerY width height radius : T) :
  let left := centerX - width / lit2 in
  let top := centerY - height / lit2 in
  let right := centerX + width / lit2 in
  let bottom := centerY + height / lit2 in
  let r := math_min (math_min radius (width / lit2)) (height / lit2) in
  (r <=? lit0) = false ->
  vRect dist s centerX centerY width height radius cw
  = mkState (Some (left + r)) (Some top)
      (shape s ++
       [(left + r, top); (right - r, top)]
       ++ curve (right - r) top right top right (top + r) 0
       ++ [(right, bottom - r)]
       ++ curve right (bottom - r) right bottom (right - r) bottom 0
       ++ [(left + r, bottom)]
       ++ curve (left + r) bottom left bottom left (bottom - r) 0
       ++ [(left, top + r)]
       ++ curve left (top + r) left top (left + r) top 0).
Proof.
  cbv zeta. intros Hr. unfold vRect. cbv zeta. rewrite Hr.
  unfold myVertex, vertex.
  repeat (erewrite myQuadraticVertex_from by reflexivity;
          cbn [shape lastX lastY]).
  f_equal. rewrite <- !app_assoc. reflexivity.
Qed.

(** ... and counter-clockwise. *)
Lemma vRect_rounded_ccw (s : state T) (centerX centerY width height radius : T) :
  let left := centerX - width / lit2 in
  let top := centerY - height / lit2 in
  let right := centerX + width / lit2 in
  let bottom := centerY + height / lit2 in
  let r := math_min (math_min radius (width / lit2)) (height / lit2) in
  (r <=? lit0) = false ->
  vRect dist s centerX centerY width height radius ccw
  = mkState (Some (left + r)) (Some bottom)
      (shape s ++
       [(left + r, bottom); (right - r, bottom)]
       ++ curve (right - r) bottom right bottom right (bottom - r) 0
       ++ [(right, top + r)]
       ++ curve right (top + r) right top (right - r) top 0
       ++ [(left + r, top)]
       ++ curve (left + r) top left top left (top + r) 0
       ++ [(left, bottom - r)]
       ++ curve left (bottom - r) left bottom (left + r) bottom 0).
Proof.
  cbv zeta. intros Hr. unfold vRect. cbv zeta. rewrite Hr.
  unfold myVertex, vertex.
  repeat (erewrite myQuadraticVertex_from by reflexivity;
          cbn [shape lastX lastY]).
  f_equal. rewrite <- !app_assoc. reflexivity.
Qed.

(** The vertices [vRect] adds with sharp corners. *)
Lemma vRect_sharp (s : state T) (centerX centerY width height radius : T)
    (dir : direction) :
  let left := centerX - width / lit2 in
  let top := centerY - height / lit2 in
  let right := centerX + width / lit2 in
  let bottom := centerY + height / lit2 in
  let r := math_min (math_min radius (width / lit2)) (height / lit2) in
  (r <=? lit0) = true ->
  vRect dist s centerX centerY width height radius dir
  = match dir with
    | cw => mkState (Some left) (Some bottom)
              (shape s ++
               [(left, top); (right, top); (right, bottom); (left, bottom)])
    | ccw => mkState (Some left) (Some top)
               (shape s ++
                [(left, bottom); (right, bottom); (right, top); (left, top)])
    end.
Proof.
  cbv zeta. intros Hr. unfold vRect. cbv zeta. rewrite Hr.
  destruct dir; cbn [rev app forEachCorner fold_left fst snd];
    unfold myVertex, vertex; cbn [shape]; rewrite <- !app_assoc; reflexivity.
Qed.

(** Brings in the bounds on the length of every curve of the goal. *)
Ltac bound_curves :=
  repeat match goal with
  | |- context [length (_recursiveQuadraticVertex ?d [] ?a ?b ?c ?e ?f ?g 0)] =>
      lazymatch goal with
      | _ : (1 <= length (_recursiveQuadraticVertex d [] a b c e f g 0)
               <= 256)%nat |- _ => fail
      | _ => pose proof (curve_length a b c e f g)
      end
  end.

(** X1.  [vRect] only appends: whatever the shape and the cursor were, it
    adds the same vertices after the ones already there, between 4 and 1029
    of them, and leaves the cursor on the last vertex it added. *)
Theorem vRect_appends (centerX centerY width height radius : T)
    (dir : direction) :
  exists (pts : list (point T)) (endX endY : T),
    (forall s : state T,
        vRect dist s centerX centerY width height radius dir
        = mkState (Some endX) (Some endY) (shape s ++ pts))
    /\ (4 <= length pts <= 1029)%nat
    /\ (forall d, last pts d = (endX, endY)).
Proof.
  destruct (math_min (math_min radius (width / lit2)) (height / lit2)
              <=? lit0) eqn:Hr.
  - destruct dir.
    + do 3 eexists. split; [|split].
      * intros s. exact (vRect_sharp s _ _ _ _ _ cw Hr).
      * cbn [length]. lia.
      * intros d. reflexivity.
    + do 3 eexists. split; [|split].
      * intros s. exact (vRect_sharp s _ _ _ _ _ ccw Hr).
      * cbn [length]. lia.
      * intros d. reflexivity.
  - destruct dir.
    + do 3 eexists. split; [|split].
      * intros s. exact (vRect_rounded_cw s _ _ _ _ _ Hr).
      * rewrite !length_app. cbn [length]. bound_curves. unfold point in *. lia.
      * intros d.
        match goal with
        | |- last (_ ++ _ ++ _ ++ _ ++ _ ++ _ ++ _ ++ curve ?a ?b ?c ?e ?f ?g 0) _ = _ =>
            destruct (FlattenerTheory.rqv_ends dist a b c e f g 0) as [q Eq]
        end.
        rewrite Eq, !app_assoc. apply last_last.
    + do 3 eexists. split; [|split].
      * intros s. exact (vRect_rounded_ccw s _ _ _ _ _ Hr).
      * rewrite !length_app. cbn [length]. bound_curves. unfold point in *. lia.
      * intros d.
        match goal with
        | |- last (_ ++ _ ++ _ ++ _ ++ _ ++ _ ++ _ ++ curve ?a ?b ?c ?e ?f ?g 0) _ = _ =>
            destruct (FlattenerTheory.rqv_ends dist a b c e f g 0) as [q Eq]
        end.
        rewrite Eq, !app_assoc. apply last_last.
Qed.

(** X2.  With rounded corners the path of [vRect] is closed: the last
    vertex it adds is the first one again ([(left + r, top)] clockwise,
    [(left + r, bottom)] counter-clockwise), the cursor is left there, and
    between the two there are at least 7 and at most 1027 vertices. *)
Theorem vRect_rounded_closed (centerX centerY width height radius : T)
    (dir : direction) :
  let left := centerX - width / lit2 in
  let top := centerY - height / lit2 in
  let bottom := centerY + height / lit2 in
  let r := math_min (math_min radius (width / lit2)) (height / lit2) in
  let startY := match dir with cw => top | ccw => bottom end in
  (r <=? lit0) = false ->
  exists middle : list (point T),
    (forall s : state T,
        vRect dist s centerX centerY width height radius dir
        = mkState (Some (left + r)) (Some startY)
            (shape s ++ (left + r, startY) :: middle ++ [(left + r, startY)]))
    /\ (7 <= length middle <= 1027)%nat.
Proof.
  cbv zeta. intros Hr.
  destruct dir.
  - destruct (curve_split (centerX - width / lit2)
                (centerY - height / lit2 +
                 math_min (math_min radius (width / lit2)) (height / lit2))
                (centerX - width / lit2) (centerY - height / lit2)
                (centerX - width / lit2 +
                 math_min (math_min radius (width / lit2)) (height / lit2))
                (centerY - height / lit2)) as [q [Eq Lq]].
    eexists. split.
    + intros s. rewrite (vRect_rounded_cw s _ _ _ _ _ Hr). rewrite Eq.
      f_equal. f_equal. cbn [app]. f_equal.
      repeat first [rewrite app_comm_cons | rewrite app_assoc].
      reflexivity.
    + rewrite !length_app. cbn [length]. bound_curves.
      unfold point in *. lia.
  - destruct (curve_split (centerX - width / lit2)
                (centerY + height / lit2 -
                 math_min (math_min radius (width / lit2)) (height / lit2))
                (centerX - width / lit2) (centerY + height / lit2)
                (centerX - width / lit2 +
                 math_min (math_min radius (width / lit2)) (height / lit2))
                (centerY + height / lit2)) as [q [Eq Lq]].
    eexists. split.
    + intros s. rewrite (vRect_rounded_ccw s _ _ _ _ _ Hr). rewrite Eq.
      f_equal. f_equal. cbn [app]. f_equal.
      repeat first [rewrite app_comm_cons | rewrite app_assoc].
      reflexivity.
    + rewrite !length_app. cbn [length]. bound_curves.
      unfold point in *. lia.
Qed.

(** X3.  When the clamped radius is not positive, [vRect] adds the four
    corners and no curve: clockwise from the top-left corner, and in the
    reverse order for ["ccw"]; the cursor is left on the last corner. *)
Theorem vRect_sharp_corners (centerX centerY width height radius : T) :
  let left := centerX - width / lit2 in
  let top := centerY - height / lit2 in
  let right := centerX + width / lit2 in
  let bottom := centerY + height / lit2 in
  let r := math_min (math_min radius (width / lit2)) (height / lit2) in
  let corners := [(left, top); (right, top); (right, bottom); (left, bottom)] in
  (r <=? lit0) = true ->
  forall s : state T,
    vRect dist s centerX centerY width height radius cw
    = mkState (Some left) (Some bottom) (shape s ++ corners)
    /\ vRect dist s centerX centerY width height radius ccw
       = mkState (Some left) (Some top) (shape s ++ rev corners).
Proof.
  cbv zeta. intros Hr s. split.
  - exact (vRect_sharp s _ _ _ _ _ cw Hr).
  - exact (vRect_sharp s _ _ _ _ _ ccw Hr).
Qed.

(** X4.  [insideContour] only appends, whatever the cursor was: it starts
    at [(startX, innerTop)], goes down to the corner, adds the corner curve
    (at most 255 points before its end point [(startX + radius, cornerY)]),
    then [(innerRight, cornerY)], and ends at [(innerRight, innerTop)], level
    with its start, where it leaves the cursor. *)
Theorem insideContour_path
    (centerX centerY width height radius thickness : T) :
  let innerTop := centerY - height / lit4 in
  let innerLeft := centerX - width / lit4 in
  let innerRight := innerLeft + width / lit2 in
  let cornerY := innerTop + height / lit2 - thickness in
  let startX := innerLeft + thickness in
  exists middle : list (point T),
    (forall s : state T,
        insideContour dist s centerX centerY width height radius thickness
        = mkState (Some innerRight) (Some innerTop)
            (shape s
             ++ [(startX, innerTop); (startX, cornerY - radius)]
             ++ middle
             ++ [(startX + radius, cornerY); (innerRight, cornerY);
                 (innerRight, innerTop)]))
    /\ (length middle <= 255)%nat.
Proof.
  cbv zeta.
  match goal with
  | |- exists _, (forall s, _ = mkState _ _ (_ ++ [(?sx, _); (_, ?y0)] ++ _ ++ [(?ex, ?ey); _; _])) /\ _ =>
      destruct (curve_split sx y0 sx ey ex ey) as [q [Eq Lq]]
  end.
  exists q. split; [|exact Lq].
  intros s. unfold insideContour. cbv zeta. unfold myVertex, vertex.
  erewrite myQuadraticVertex_from by reflexivity.
  cbn [shape lastX lastY]. rewrite Eq.
  f_equal. rewrite <- !app_assoc. reflexivity.
Qed.

(** X5.  Two curves in a row: the second starts exactly at the end point of
    the first, however the first was subdivided and whatever the cursor was
    before. *)
Theorem curve_after_curve (s : state T) (c1x c1y e1x e1y c2x c2y e2x e2y : T) :
  myQuadraticVertex dist (myQuadraticVertex dist s c1x c1y e1x e1y)
    c2x c2y e2x e2y
  = mkState (Some e2x) (Some e2y)
      (shape s ++ emitted dist s c1x c1y e1x e1y
       ++ curve e1x e1y c2x c2y e2x e2y 0).
Proof.
  erewrite myQuadraticVertex_from by reflexivity.
  rewrite FlattenerTheory.myQuadraticVertex_shape, <- app_assoc. reflexivity.
Qed.

End Generic.
Local Open Scope float_scope.

(** The running example of the rounded rectangle: the outer core of
    transformer.ts (400 by 400, radius 5, centre [(p.width / 2 - 70, 350)])
    on a canvas 400 wide, in JavaScript's numbers. *)
Lemma vRect_rounded_closed_witness :
  exists middle : list (point float),
    (forall s : state float,
        vRect float_dist s 130 350 400 400 5 cw
        = mkState (Some (-65)%float) (Some 150%float)
            (shape s ++ ((-65)%float, 150%float) :: middle
                     ++ [((-65)%float, 150%float)]))
    /\ (7 <= length middle <= 1027)%nat.
Proof.
  exact (vRect_rounded_closed float_dist 130 350 400 400 5 cw eq_refl).
Defined.

(** The same frame with radius 0: the four corners, in either direction. *)
Lemma vRect_sharp_corners_witness :
  vRect float_dist (mkState None None []) 130 350 400 400 0 cw
  = mkState (Some (-70)%float) (Some 550%float)
      [((-70)%float, 150%float); (330%float, 150%float);
       (330%float, 550%float); ((-70)%float, 550%float)]
  /\ vRect float_dist (mkState None None []) 130 350 400 400 0 ccw
     = mkState (Some (-70)%float) (Some 150%float)
         [((-70)%float, 550%float); (330%float, 550%float);
          (330%float, 150%float); ((-70)%float, 150%float)].
Proof.
  exact (vRect_sharp_corners float_dist 130 350 400 400 0 eq_refl
           (mkState None None [])).
Defined.

End ShapesTheory.

(** ** The flattener with a cursor that was never assigned *)

Module UnassignedCursor.

Import Flattener FloatFacts.
Local Open Scope float_scope.

Lemma Prim2SF_nan : Prim2SF nan = S754_nan.
Proof. reflexivity. Qed.

(** NaN goes through every operation, and no comparison with it holds. *)
Lemma add_nan_l (x : float) : nan + x = nan.
Proof. apply Prim2SF_inj. rewrite add_spec, Prim2SF_nan. reflexivity. Qed.

Lemma add_nan_r (x : float) : x + nan = nan.
Proof.
  apply Prim2SF_inj. rewrite add_spec, Prim2SF_nan.
  destruct (Prim2SF x); reflexivity.
Qed.

Lemma sub_nan_r (x : float) : x - nan = nan.
Proof.
  apply Prim2SF_inj. rewrite sub_spec, Prim2SF_nan.
  destruct (Prim2SF x); reflexivity.
Qed.

Lemma mul_nan_l (x : float) : nan * x = nan.
Proof. apply Prim2SF_inj. rewrite mul_spec, Prim2SF_nan. reflexivity. Qed.

Lemma div_nan_l (x : float) : nan / x = nan.
Proof. apply Prim2SF_inj. rewrite div_spec, Prim2SF_nan. reflexivity. Qed.

Lemma div_nan_r (x : float) : x / nan = nan.
Proof.
  apply Prim2SF_inj. rewrite div_spec, Prim2SF_nan.
  destruct (Prim2SF x); reflexivity.
Qed.

Lemma eqb_nan_l (x : float) : (nan =? x) = false.
Proof. rewrite FloatAxioms.eqb_spec, Prim2SF_nan. reflexivity. Qed.

Lemma ltb_nan_l (x : float) : (nan <? x) = false.
Proof. rewrite ltb_spec, Prim2SF_nan. reflexivity. Qed.

Lemma ltb_nan_r (x : float) : (x <? nan) = false.
Proof.
  rewrite ltb_spec, Prim2SF_nan. unfold SFltb.
  destruct (Prim2SF x); reflexivity.
Qed.

Section NaNStart.
Variable dist : float -> float -> float -> float -> float.
Hypothesis dist_nan : forall px py, dist px py nan nan = nan.

(** No segment that starts at a NaN abscissa is flat enough below the depth
    ceiling. *)
Lemma flatEnough_nan_start (y0 x1 y1 x2 y2 : float) (depth : nat) :
  flatEnough dist nan y0 x1 y1 x2 y2 depth
  = (maxRecursionDepth <=? depth)%nat.
Proof.
  unfold flatEnough, getDistanceToLine. cbv zeta.
  cbn [add sub mul div lt strict_eq lit0 lit1 float_Number]. unfold gt.
  cbn [lt float_Number].
  rewrite !sub_nan_r, !mul_nan_l, !add_nan_l, eqb_nan_l, !div_nan_r.
  rewrite ltb_nan_l, ltb_nan_r, !mul_nan_l, !add_nan_r, dist_nan, ltb_nan_l.
  apply orb_false_r.
Qed.

Lemma rqv_nan_start (y0 x1 y1 x2 y2 : float) (depth : nat) :
  (depth <= maxRecursionDepth)%nat ->
  length (_recursiveQuadraticVertex dist [] nan y0 x1 y1 x2 y2 depth)
  = (2 ^ (maxRecursionDepth - depth))%nat.
Proof.
  remember (maxRecursionDepth - depth)%nat as n eqn:En.
  revert y0 x1 y1 x2 y2 depth En.
  induction n as [|n IH]; intros y0 x1 y1 x2 y2 depth En Hd;
    rewrite FlattenerTheory.rqv_unfold, flatEnough_nan_start.
  - replace (maxRecursionDepth <=? depth)%nat with true
      by (symmetry; apply Nat.leb_le; lia).
    reflexivity.
  - replace (maxRecursionDepth <=? depth)%nat with false
      by (symmetry; apply Nat.leb_gt; lia).
    cbv zeta. rewrite FlattenerTheory.rqv_app, length_app.
    cbn [add div lit2 float_Number].
    repeat first [rewrite add_nan_l | rewrite div_nan_l].
    rewrite !IH by lia. rewrite Nat.pow_succ_r'. lia.
Qed.

End NaNStart.

Lemma sub_nan_l (x : float) : nan - x = nan.
Proof. apply Prim2SF_inj. rewrite sub_spec, Prim2SF_nan. reflexivity. Qed.

(** The documented distance to a point of NaN coordinates is NaN. *)
Lemma float_dist_nan (px py : float) : float_dist px py nan nan = nan.
Proof.
  unfold float_dist. rewrite !sub_nan_l, !mul_nan_l, add_nan_l. reflexivity.
Qed.

(** X6.  A curve drawn before the cursor was ever assigned: [lastX] reads as
    NaN, no flatness test passes (for a [pInstance.dist] that gives NaN at a
    NaN point, as a distance computed from coordinate differences does), and
    the curve is cut all the way down to the depth ceiling: exactly
    [2 ^ maxRecursionDepth = 256] points are added. *)
Theorem curve_from_unassigned_cursor
    (dist : float -> float -> float -> float -> float)
    (s : state float) (cx cy ex ey : float) :
  (forall px py, dist px py nan nan = nan) ->
  lastX s = None ->
  length (emitted dist s cx cy ex ey) = 256%nat
  /\ length (shape (myQuadraticVertex dist s cx cy ex ey))
     = (length (shape s) + 256)%nat.
Proof.
  intros Hd Hx.
  assert (He : length (emitted dist s cx cy ex ey) = 256%nat).
  { unfold emitted. rewrite Hx. cbn [read].
    change (@unassigned float float_Unassigned) with nan.
    rewrite (rqv_nan_start dist Hd) by (unfold maxRecursionDepth; lia).
    reflexivity. }
  split; [exact He|].
  rewrite FlattenerTheory.myQuadraticVertex_shape, length_app, He.
  reflexivity.
Qed.

Lemma curve_from_unassigned_cursor_witness :
  length (emitted float_dist (mkState None None []) 0 10 10 10) = 256%nat
  /\ length (shape (myQuadraticVertex float_dist (mkState None None [])
                      0 10 10 10))
     = (length (shape (mkState (T := float) None None [])) + 256)%nat.
Proof.
  apply (curve_from_unassigned_cursor float_dist (mkState None None [])
           0 10 10 10 float_dist_nan).
  reflexivity.
Defined.

End UnassignedCursor.

(** ** Exchanging the windings *)

Module TransformerSymmetry.

Import Transformer FloatFacts String.
Local Open Scope float_scope.

(** X7.  The type of the transformer depends on the two numbers of turns
    only, and exchanging the windings exchanges "Step-Up" and "Step-Down"
    and keeps "Isolation", whatever the voltages and loads. *)
Theorem exchange_windings (Vp Vp' Np Ns R R' : float) :
  let r := calculateTransformerResults Vp Np Ns R in
  let r' := calculateTransformerResults Vp' Ns Np R' in
  (transformerType r = "Step-Up"%string
   <-> transformerType r' = "Step-Down"%string)
  /\ (transformerType r = "Step-Down"%string
      <-> transformerType r' = "Step-Up"%string)
  /\ (transformerType r = "Isolation"%string
      <-> transformerType r' = "Isolation"%string).
Proof.
  cbv zeta. unfold calculateTransformerResults, gt.
  cbn [transformerType lt float_Number].
  destruct (Np <? Ns) eqn:Ha; destruct (Ns <? Np) eqn:Hb.
  - rewrite (ltb_asym _ _ Ha) in Hb. discriminate Hb.
  - repeat split; intros E; try reflexivity; discriminate E.
  - repeat split; intros E; try reflexivity; discriminate E.
  - repeat split; intros E; try reflexivity; discriminate E.
Qed.

End TransformerSymmetry.
